(** * Monetary-regime analysis scripts: welfare, sweep and chart pipelines

  A shallow embedding of the three analysis scripts
  [analysis/python/regime_welfare.py], [analysis/python/regime_sweep.py]
  and [analysis/python/regime_charts.py], and the properties their
  specification states about them.

  Layout: the Python and pandas notions the scripts rely on ([Py],
  [Pandas]), the results tree they read ([Results]), one module per
  script ([Welfare], [Sweep], [Charts]), the two arithmetics the
  definitions are run with ([Binary64], [Exact]), then the properties. *)

From Stdlib Require Import ZArith List Bool Lia.
From Stdlib Require Import Permutation Sorted.
From Stdlib Require Import Floats.SpecFloat.
From Stdlib Require Import Reals Lra Psatz.
Import ListNotations.

Set Implicit Arguments.
Local Open Scope Z_scope.

(** ** Python values, exceptions and float arithmetic *)

Module Py.

(** The exceptions the scripts can meet.  Only [FileNotFoundError] is
    ever caught; the others abort the run. *)
Inductive exn : Type :=
| FileNotFoundError
| ValueError
| OverflowError
| AttributeError
| KeyError.

Definition exn_eqb (a b : exn) : bool :=
  match a, b with
  | FileNotFoundError, FileNotFoundError
  | ValueError, ValueError
  | OverflowError, OverflowError
  | AttributeError, AttributeError
  | KeyError, KeyError => true
  | _, _ => false
  end.

(** A computation either raises or returns. *)
Definition result (A : Type) : Type := (exn + A)%type.

Definition raise {A : Type} (e : exn) : result A := inl e.
Definition ret {A : Type} (a : A) : result A := inr a.

Definition bind {A B : Type} (m : result A) (k : A -> result B) : result B :=
  match m with
  | inl e => inl e
  | inr a => k a
  end.

(** [try: body  except e: handler] *)
Definition try_except {A : Type} (body : result A) (e : exn)
    (handler : result A) : result A :=
  match body with
  | inl e' => if exn_eqb e' e then handler else inl e'
  | inr a => inr a
  end.

(** Running a fallible body over a list, left to right, stopping at the
    first exception. *)
Fixpoint mapM {A B : Type} (f : A -> result B) (l : list A)
    : result (list B) :=
  match l with
  | [] => ret []
  | a :: l' =>
      bind (f a) (fun b => bind (mapM f l') (fun bs => ret (b :: bs)))
  end.

(** The operations of Python's [float] (and numpy's [float64]) that the
    scripts use.  [of_int] is the conversion an [int] operand undergoes in
    mixed arithmetic, [to_int] is [int(x)], which raises on NaN and on the
    infinities, [fltb x y] is [x < y], [isnan] is [pd.isna]. *)
Class PyFloat (F : Type) : Type := {
  of_int : Z -> F;
  to_int : F -> result Z;
  fadd : F -> F -> F;
  fsub : F -> F -> F;
  fmul : F -> F -> F;
  fdiv : F -> F -> F;
  fabs : F -> F;
  fsqrt : F -> F;
  fltb : F -> F -> bool;
  isnan : F -> bool;
  nan : F
}.

(** [x > y] *)
Definition fgtb {F : Type} `{PyFloat F} (x y : F) : bool := fltb y x.

(** The builtin [max(a, b)]: the first argument is kept unless the second
    compares greater. *)
Definition max {F : Type} `{PyFloat F} (a b : F) : F :=
  if fgtb b a then b else a.

(** A decimal literal [n / 10^k]: the correctly rounded quotient of two
    exactly representable integers is the float nearest to the decimal. *)
Definition decimal {F : Type} `{PyFloat F} (n : Z) (k : nat) : F :=
  fdiv (of_int n) (of_int (10 ^ Z.of_nat k)).

End Py.

Import Py.

Declare Scope py_scope.
Delimit Scope py_scope with py.
Notation "x <- m ;; k" := (bind m (fun x => k))
(at level 61, m at next level, right associativity) : py_scope.
Infix "+" := fadd : py_scope.
Infix "-" := fsub : py_scope.
Infix "*" := fmul : py_scope.
Infix "/" := fdiv : py_scope.
Infix ">" := fgtb : py_scope.
Infix "<" := fltb : py_scope.

(** ** The pandas operations the scripts call *)

Module Pandas.
Section WithFloat.
Context {F : Type} `{PyFloat F}.

(** A [Series]: values with their index labels, in row order. *)
Definition Series (L : Type) : Type := list (L * F).

(** *** Sums: numpy's pairwise summation

    [ndarray.sum()] on a float64 column, which [Series.mean()] and
    [Series.std()] reduce with.  Fewer than eight values are added one by
    one; up to 128 values are added in eight lanes that are combined at
    the end, the leftover values last; a longer column is split in two
    (at a multiple of eight) and the halves are summed the same way.  The
    ufunc starts from its identity 0.  Later numpy versions start from
    -0.0 instead, which changes at most the sign of a zero total. *)

Definition sum_loop (res : F) (l : list F) : F := fold_left fadd l res.

Record Lanes : Type := {
  r0 : F; r1 : F; r2 : F; r3 : F; r4 : F; r5 : F; r6 : F; r7 : F
}.

Fixpoint lanes_loop (r : Lanes) (l : list F) : Lanes * list F :=
  match l with
  | a0 :: a1 :: a2 :: a3 :: a4 :: a5 :: a6 :: a7 :: l' =>
      lanes_loop {| r0 := r0 r + a0; r1 := r1 r + a1;
                    r2 := r2 r + a2; r3 := r3 r + a3;
                    r4 := r4 r + a4; r5 := r5 r + a5;
                    r6 := r6 r + a6; r7 := r7 r + a7 |}%py l'
  | _ => (r, l)
  end.

Definition lanes_total (r : Lanes) : F :=
  (((r0 r + r1 r) + (r2 r + r3 r))
   + ((r4 r + r5 r) + (r6 r + r7 r)))%py.

(** A block of at most 128 values. *)
Definition sum_block (l : list F) : F :=
  match l with
  | a0 :: a1 :: a2 :: a3 :: a4 :: a5 :: a6 :: a7 :: l' =>
      let (r, rest) :=
        lanes_loop {| r0 := a0; r1 := a1; r2 := a2; r3 := a3;
                      r4 := a4; r5 := a5; r6 := a6; r7 := a7 |} l' in
      sum_loop (lanes_total r) rest
  | _ => sum_loop (of_int 0) l
  end.

(** The recursion halves the column, so [length l] levels are more than
    it ever needs. *)
Fixpoint pairwise_sum (depth : nat) (l : list F) : F :=
  let n := List.length l in
  if (n <=? 128)%nat then sum_block l
  else
    match depth with
    | O => sum_block l
    | S depth' =>
        let n2 := (n / 2 - (n / 2) mod 8)%nat in
        (pairwise_sum depth' (firstn n2 l)
         + pairwise_sum depth' (skipn n2 l))%py
    end.

Definition sum (l : list F) : F :=
  (of_int 0 + pairwise_sum (List.length l) l)%py.

(** *** [Series.mean()] and [Series.std()]

    As pandas computes them itself, in [nanops] (the optional bottleneck
    package is not used for them here).  Both skip NaN entries
    ([skipna=True]): the entries are counted without the NaN ones and
    summed with 0 in their place. *)

Definition dropna (l : list F) : list F :=
  filter (fun x => negb (isnan x)) l.

Definition count (l : list F) : Z := Z.of_nat (List.length (dropna l)).

Definition fillna (fill : F) (l : list F) : list F :=
  map (fun x => if isnan x then fill else x) l.

(** [Series.mean()]: NaN when no number is left. *)
Definition mean (l : list F) : F :=
  if count l >? 0 then (sum (fillna (of_int 0) l) / of_int (count l))%py
  else nan.

(** [Series.std()], the sample standard deviation ([ddof=1]), by the
    two-pass formula: the squared deviations from the mean are summed,
    divided by [count - 1] and the root is taken; fewer than two numbers
    give NaN. *)
Definition std (l : list F) : F :=
  if count l <=? 1 then nan
  else
    let avg := (sum (fillna (of_int 0) l) / of_int (count l))%py in
    let sqr :=
      map (fun x => if isnan x then of_int 0
                    else ((avg - x) * (avg - x))%py) l in
    fsqrt (sum sqr / of_int (count l - 1))%py.

(** *** The reductions of a [groupby]

    [groupby(...)[col].mean()] and [.std()] run pandas' own one-pass
    kernels over the rows of each group, NaN entries skipped. *)

(** [group_mean]: a compensated (Kahan) sum divided by the number of
    values; a compensation that turned NaN (an infinite value) is reset. *)
Record MeanState : Type := {
  mean_nobs : Z;
  sumx : F;
  compensation : F
}.

Definition mean_step (st : MeanState) (val : F) : MeanState :=
  if isnan val then st
  else
    (let y := val - compensation st in
     let t := sumx st + y in
     let c := t - sumx st - y in
     {| mean_nobs := mean_nobs st + 1;
        sumx := t;
        compensation := if isnan c then of_int 0 else c |})%py.

Definition group_mean (l : list F) : F :=
  let st := fold_left mean_step l
              {| mean_nobs := 0; sumx := of_int 0;
                 compensation := of_int 0 |} in
  if mean_nobs st =? 0 then nan
  else (sumx st / of_int (mean_nobs st))%py.

(** [group_var] with the root taken: Welford's update of the running
    mean and of the sum of squared deviations; fewer than two values give
    NaN. *)
Record VarState : Type := {
  var_nobs : Z;
  running_mean : F;
  m2 : F
}.

Definition var_step (st : VarState) (val : F) : VarState :=
  if isnan val then st
  else
    (let nobs := (var_nobs st + 1)%Z in
     let oldmean := running_mean st in
     let newmean := oldmean + (val - oldmean) / of_int nobs in
     {| var_nobs := nobs;
        running_mean := newmean;
        m2 := m2 st + (val - newmean) * (val - oldmean) |})%py.

Definition group_std (l : list F) : F :=
  let st := fold_left var_step l
              {| var_nobs := 0; running_mean := of_int 0;
                 m2 := of_int 0 |} in
  if var_nobs st <=? 1 then nan
  else fsqrt (m2 st / of_int (var_nobs st - 1))%py.

(** [Series.idxmax()]: the label of the first occurrence of the maximum,
    NaN entries skipped.  With nothing but NaN there is no label to
    return: pandas raises [ValueError] (older versions hand back NaN,
    which the scripts then fail to look up). *)
Fixpoint idxmax_from {L : Type} (best : L * F) (s : Series L) : L :=
  match s with
  | [] => fst best
  | (k, v) :: s' =>
      if isnan v then idxmax_from best s'
      else if (v > snd best)%py then idxmax_from (k, v) s'
      else idxmax_from best s'
  end.

Fixpoint idxmax {L : Type} (s : Series L) : result L :=
  match s with
  | [] => raise ValueError
  | (k, v) :: s' =>
      if isnan v then idxmax s' else ret (idxmax_from (k, v) s')
  end.

(** [s[label]] *)
Fixpoint getitem (s : Series Z) (label : Z) : result F :=
  match s with
  | [] => raise KeyError
  | (k, v) :: s' => if k =? label then ret v else getitem s' label
  end.

(** Group keys come out sorted and without duplicates. *)
Fixpoint insert_key (k : Z) (ks : list Z) : list Z :=
  match ks with
  | [] => [k]
  | k' :: ks' =>
      if k <? k' then k :: ks
      else if k =? k' then ks
      else k' :: insert_key k ks'
  end.

Definition group_keys (ks : list Z) : list Z :=
  fold_right insert_key [] ks.

(** [df.groupby(key)]: each key with its rows, in their original order. *)
Definition groupby {A : Type} (key : A -> Z) (df : list A)
    : list (Z * list A) :=
  map (fun k => (k, filter (fun a => key a =? k) df))
      (group_keys (map key df)).

(** [df.groupby(key)[col].agg(f)] for a reduction [f]. *)
Definition groupby_agg {A : Type} (key : A -> Z) (col : A -> F)
    (f : list F -> F) (df : list A) : Series Z :=
  map (fun g => (fst g, f (map col (snd g)))) (groupby key df).

End WithFloat.
End Pandas.

(** ** The results tree: simulations/results/<regime>/sweep_<regime>_<bdp>_<kind>.csv *)

Module Results.

Inductive RegimeId : Type := pln | eur.

Definition RegimeId_eqb (a b : RegimeId) : bool :=
  match a, b with
  | pln, pln | eur, eur => true
  | _, _ => false
  end.

(** One row of a [..._terminal.csv] file: the ending values of one seed.
    [EffectiveBDP] is an optional column. *)
Record TerminalRow (F : Type) : Type := {
  TotalAdoption : F;
  Inflation : F;
  Unemployment : F;
  ExRate : F;
  MarketWage : F;
  RefRate : F;
  NPL : F;
  PriceLevel : F;
  EffectiveBDP : option F
}.

(** One row of a [..._timeseries.csv] file: one simulated month, each
    plotted metric as mean and 5th/95th percentile across seeds. *)
Record TimeseriesRow (F : Type) : Type := {
  Month : F;
  Inflation_mean : F; Inflation_p05 : F; Inflation_p95 : F;
  TotalAdoption_mean : F; TotalAdoption_p05 : F; TotalAdoption_p95 : F;
  Unemployment_mean : F; Unemployment_p05 : F; Unemployment_p95 : F
}.

(** The files on disk; [None] is a file that does not exist. *)
Record Tree (F : Type) : Type := {
  terminal : RegimeId -> Z -> option (list (TerminalRow F));
  timeseries : RegimeId -> Z -> option (list (TimeseriesRow F))
}.

(** [pd.read_csv] on a path of the tree. *)
Definition read_csv {A : Type} (file : option A) : result A :=
  match file with
  | None => raise FileNotFoundError
  | Some df => ret df
  end.

(** [r.get(key, default)] on an optional column. *)
Definition get {F : Type} (field : option F) (default : F) : F :=
  match field with
  | Some v => v
  | None => default
  end.

(** [list(range(0, 5001, 250))] *)
Definition BDP_LEVELS : list Z :=
  map (fun i => 250 * Z.of_nat i) (seq 0 21).

End Results.

(** ** analysis/python/regime_welfare.py *)

Module Welfare.
Import Results.
Section WithFloat.
Context {F : Type} `{PyFloat F}.

Definition POPULATION : Z := 100000.
Definition MPC : F := decimal 82 2.

Definition load_term (tree : Tree F) (regime : RegimeId) (bdp : Z)
    : result (list (TerminalRow F)) :=
  read_csv (terminal tree regime bdp).

(** The local variables of one iteration of the loop in
    [compute_welfare], under their own names.  The counts are Python
    integers, the rest are floats.  Without an EffectiveBDP cell the code
    holds the transfer as the integer [bdp_amount]; its products with the
    counts are the same numbers as the float products here as long as
    they stay below 2^53, which at the levels of BDP_LEVELS covers every
    unemployment value of magnitude below 10^6. *)
Record Locals : Type := {
  n_emp : Z;
  n_unemp : Z;
  actual_bdp : F;
  y_emp : F;
  y_unemp : F;
  total_income : F;
  real_consumption : F;
  real_cons_pc : F;
  gini : F
}.

(** The dictionary appended for each row, one field per key. *)
Record WelfareRow : Type := {
  col_real_cons_pc : F;
  col_gini : F;
  col_adoption : F;
  col_unemployment : F
}.

(** The divisor of the real-consumption division. *)
Definition price_floor (price : F) : F := max (decimal 1 2) price.

Definition row_locals (r : TerminalRow F) (bdp_amount : Z)
    : result Locals :=
  (let unemp := Unemployment r in
   let wage := MarketWage r in
   let price := PriceLevel r in
   n_emp <- to_int ((of_int 1 - unemp) * of_int POPULATION) ;;
   let n_unemp := (POPULATION - n_emp)%Z in
   let actual_bdp := get (EffectiveBDP r) (of_int bdp_amount) in
   let actual_bdp :=
     if isnan actual_bdp then of_int bdp_amount else actual_bdp in
   let y_emp := wage + actual_bdp in
   let y_unemp := actual_bdp in
   let total_income := of_int n_emp * y_emp + of_int n_unemp * y_unemp in
   let real_consumption := total_income * MPC / price_floor price in
   let real_cons_pc := real_consumption / of_int POPULATION in
   let gini :=
     if (total_income > of_int 0) && (n_emp >? 0)%Z && (n_unemp >? 0)%Z
     then of_int (n_emp * n_unemp) * fabs (y_emp - y_unemp)
          / (of_int POPULATION * total_income)
     else of_int 0 in
   ret {| n_emp := n_emp; n_unemp := n_unemp; actual_bdp := actual_bdp;
          y_emp := y_emp; y_unemp := y_unemp;
          total_income := total_income;
          real_consumption := real_consumption;
          real_cons_pc := real_cons_pc; gini := gini |})%py.

Definition welfare_row (r : TerminalRow F) (bdp_amount : Z)
    : result WelfareRow :=
  (l <- row_locals r bdp_amount ;;
   ret {| col_real_cons_pc := real_cons_pc l;
          col_gini := gini l;
          col_adoption := TotalAdoption r * of_int 100;
          col_unemployment := Unemployment r * of_int 100 |})%py.

Definition compute_welfare (df : list (TerminalRow F)) (bdp_amount : Z)
    : result (list WelfareRow) :=
  mapM (fun r => welfare_row r bdp_amount) df.

(** [w.col]: a frame built from no rows has no columns at all. *)
Definition column {A : Type} (w : list A) (col : A -> F)
    : result (list F) :=
  match w with
  | [] => raise AttributeError
  | _ :: _ => ret (map col w)
  end.

(** One entry of the [welfare] list. *)
Record Aggregate : Type := {
  BDP : Z;
  Regime : RegimeId;
  RealConsPc_mean : F;
  RealConsPc_std : F;
  Gini_mean : F;
  Gini_std : F;
  Adoption_mean : F;
  Unemployment_mean : F
}.

(** The body of the [try] for one [(bdp, regime)]. *)
Definition welfare_entry (tree : Tree F) (bdp : Z) (regime : RegimeId)
    : result Aggregate :=
  (df <- load_term tree regime bdp ;;
   w <- compute_welfare df bdp ;;
   cons_pc <- column w col_real_cons_pc ;;
   gini <- column w col_gini ;;
   adoption <- column w col_adoption ;;
   unemployment <- column w col_unemployment ;;
   ret {| BDP := bdp;
          Regime := regime;
          RealConsPc_mean := Pandas.mean cons_pc;
          RealConsPc_std := Pandas.std cons_pc;
          Gini_mean := Pandas.mean gini;
          Gini_std := Pandas.std gini;
          Adoption_mean := Pandas.mean adoption;
          Unemployment_mean := Pandas.mean unemployment |})%py.

(** [try: ... welfare.append(...)  except FileNotFoundError: pass] *)
Definition welfare_step (tree : Tree F) (welfare : list Aggregate)
    (bdp : Z) (regime : RegimeId) : result (list Aggregate) :=
  try_except
    (a <- welfare_entry tree bdp regime ;; ret (welfare ++ [a]))%py
    FileNotFoundError
    (ret welfare).

(** The two nested [for] loops, over an arbitrary list of levels. *)
Fixpoint welfare_loop (tree : Tree F) (levels : list Z)
    (welfare : list Aggregate) : result (list Aggregate) :=
  match levels with
  | [] => ret welfare
  | bdp :: levels' =>
      (welfare <- welfare_step tree welfare bdp pln ;;
       welfare <- welfare_step tree welfare bdp eur ;;
       welfare_loop tree levels' welfare)%py
  end.

Definition welfare_list (tree : Tree F) : result (list Aggregate) :=
  welfare_loop tree BDP_LEVELS [].

(** [wdf = pd.DataFrame(welfare)]: the entries under the labels 0, 1, ... *)
Definition DataFrame (welfare : list Aggregate) : list (Z * Aggregate) :=
  combine (map Z.of_nat (seq 0 (List.length welfare))) welfare.

(** [wdf[wdf['Regime'] == regime]]: rows keep their labels; a frame built
    from no entries has no ['Regime'] column. *)
Definition select_regime (wdf : list (Z * Aggregate)) (regime : RegimeId)
    : result (list (Z * Aggregate)) :=
  match wdf with
  | [] => raise KeyError
  | _ :: _ =>
      ret (filter (fun ia => RegimeId_eqb (Regime (snd ia)) regime) wdf)
  end.

(** [df.loc[label]] *)
Fixpoint loc (df : list (Z * Aggregate)) (label : Z) : result Aggregate :=
  match df with
  | [] => raise KeyError
  | (i, a) :: df' => if (i =? label)%Z then ret a else loc df' label
  end.

(** The "optimal BDP" loop body for one regime's frame: nothing is
    printed for an empty frame, otherwise the row [best]. *)
Definition optimal (df : list (Z * Aggregate))
    : result (option Aggregate) :=
  match df with
  | [] => ret None
  | _ :: _ =>
      (label <- Pandas.idxmax
                  (map (fun ia => (fst ia, RealConsPc_mean (snd ia))) df) ;;
       best <- loc df label ;;
       ret (Some best))%py
  end.

(** One printed line of the summary table. *)
Record SummaryLine : Type := {
  line_bdp : Z;
  line_pln : Aggregate;
  line_eur : Aggregate;
  dc : F;
  dg : F
}.

Definition at_level (df : list (Z * Aggregate)) (bdp : Z)
    : list (Z * Aggregate) :=
  filter (fun ia => (BDP (snd ia) =? bdp)%Z) df.

Definition summary_line (pln_df eur_df : list (Z * Aggregate)) (bdp : Z)
    : list SummaryLine :=
  match at_level pln_df bdp, at_level eur_df bdp with
  | (_, p) :: _, (_, e) :: _ =>
      [ {| line_bdp := bdp; line_pln := p; line_eur := e;
           dc := (RealConsPc_mean e - RealConsPc_mean p)%py;
           dg := (Gini_mean e - Gini_mean p)%py |} ]
  | _, _ => []
  end.

(** What a run prints: the summary lines and the optimum per regime. *)
Record Report : Type := {
  summary : list SummaryLine;
  optimal_pln : option Aggregate;
  optimal_eur : option Aggregate
}.

Definition script (tree : Tree F) : result Report :=
  (welfare <- welfare_list tree ;;
   let wdf := DataFrame welfare in
   pln_df <- select_regime wdf pln ;;
   eur_df <- select_regime wdf eur ;;
   best_pln <- optimal pln_df ;;
   best_eur <- optimal eur_df ;;
   ret {| summary := flat_map (summary_line pln_df eur_df) BDP_LEVELS;
          optimal_pln := best_pln;
          optimal_eur := best_eur |})%py.

End WithFloat.
End Welfare.

(** ** analysis/python/regime_sweep.py *)

Module Sweep.
Section WithFloat.
Context {F : Type} `{PyFloat F}.

Abbreviation RegimeId := Results.RegimeId.
Abbreviation TerminalRow := Results.TerminalRow.
Abbreviation Tree := Results.Tree.
Abbreviation BDP_LEVELS := Results.BDP_LEVELS.

(** The dictionary appended for each terminal row. *)
Record SweepRow : Type := {
  BDP : Z;
  Adoption : F;
  Inflation : F;
  Unemployment : F;
  ExRate : F;
  RefRate : F;
  NPL : F;
  EffectiveBDP : F
}.

(** A printed line ["  MISSING: sweep_<regime>_<bdp>_terminal.csv"]. *)
Inductive Notice : Type :=
| MISSING (regime : RegimeId) (bdp : Z).

(** The inner loop over the rows of one file. *)
Definition sweep_row (bdp : Z) (row : TerminalRow F) : SweepRow :=
  (let eff_bdp := Results.get (Results.EffectiveBDP row) (of_int bdp) in
   let eff_bdp := if isnan eff_bdp then of_int bdp else eff_bdp in
   {| BDP := bdp;
      Adoption := Results.TotalAdoption row * of_int 100;
      Inflation := Results.Inflation row * of_int 100;
      Unemployment := Results.Unemployment row * of_int 100;
      ExRate := Results.ExRate row;
      RefRate := Results.RefRate row * of_int 100;
      NPL := Results.NPL row * of_int 100;
      EffectiveBDP := eff_bdp |})%py.

(** The loop of [load_sweep] over an arbitrary list of levels, threading
    what was printed and the rows collected so far. *)
Fixpoint load_loop (tree : Tree F) (regime : RegimeId) (levels : list Z)
    (out : list Notice) (rows : list SweepRow)
    : list Notice * list SweepRow :=
  match levels with
  | [] => (out, rows)
  | bdp :: levels' =>
      match Results.terminal tree regime bdp with
      | None =>
          load_loop tree regime levels' (out ++ [MISSING regime bdp]) rows
      | Some df =>
          load_loop tree regime levels' out
                    (rows ++ map (sweep_row bdp) df)
      end
  end.

Definition load_sweep (tree : Tree F) (regime : RegimeId)
    : list Notice * list SweepRow :=
  load_loop tree regime BDP_LEVELS [] [].

(** [data.groupby('BDP')[col].agg(['mean', 'std'])] *)
Definition means (data : list SweepRow) (col : SweepRow -> F)
    : Pandas.Series Z * Pandas.Series Z :=
  (Pandas.groupby_agg BDP col Pandas.group_mean data,
   Pandas.groupby_agg BDP col Pandas.group_std data).

(** [stds = data.groupby('BDP')['Adoption'].std()] *)
Definition stds (data : list SweepRow) : Pandas.Series Z :=
  Pandas.groupby_agg BDP Adoption Pandas.group_std data.

(** Panel C and the closing report both locate the critical point this
    way; an empty frame is skipped. *)
Definition critical_point (data : list SweepRow)
    : result (option (Z * F)) :=
  match data with
  | [] => ret None
  | _ :: _ =>
      (cp <- Pandas.idxmax (stds data) ;;
       sigma <- Pandas.getitem (stds data) cp ;;
       ret (Some (cp, sigma)))%py
  end.

(** [data[data['BDP'] == bdp]]: a frame built from no rows has no ['BDP']
    column. *)
Definition at_level (data : list SweepRow) (bdp : Z)
    : result (list SweepRow) :=
  match data with
  | [] => raise KeyError
  | _ :: _ => ret (filter (fun r => BDP r =? bdp) data)
  end.

(** One printed line of the summary table. *)
Record SummaryLine : Type := {
  line_bdp : Z;
  pln_adopt : F; pln_adopt_std : F;
  eur_adopt : F; eur_adopt_std : F;
  pln_infl : F; eur_infl : F;
  pln_unemp : F; eur_unemp : F;
  eur_eff : F
}.

Definition summary_line (data_pln data_eur : list SweepRow) (bdp : Z)
    : result (list SummaryLine) :=
  (pln_sub <- at_level data_pln bdp ;;
   eur_sub <- at_level data_eur bdp ;;
   match pln_sub, eur_sub with
   | _ :: _, _ :: _ =>
       ret [ {| line_bdp := bdp;
                pln_adopt := Pandas.mean (map Adoption pln_sub);
                pln_adopt_std := Pandas.std (map Adoption pln_sub);
                eur_adopt := Pandas.mean (map Adoption eur_sub);
                eur_adopt_std := Pandas.std (map Adoption eur_sub);
                pln_infl := Pandas.mean (map Inflation pln_sub);
                eur_infl := Pandas.mean (map Inflation eur_sub);
                pln_unemp := Pandas.mean (map Unemployment pln_sub);
                eur_unemp := Pandas.mean (map Unemployment eur_sub);
                eur_eff := Pandas.mean (map EffectiveBDP eur_sub) |} ]
   | _, _ => ret []
   end)%py.

(** What a run prints: the notices of the two loads, the summary lines
    and the critical point per regime. *)
Record Report : Type := {
  notices : list Notice;
  marker_pln : option (Z * F);
  marker_eur : option (Z * F);
  summary : list SummaryLine;
  critical_pln : option (Z * F);
  critical_eur : option (Z * F)
}.

Definition script (tree : Tree F) : result Report :=
  (let (out_pln, data_pln) := load_sweep tree Results.pln in
   let (out_eur, data_eur) := load_sweep tree Results.eur in
   mark_pln <- critical_point data_pln ;;
   mark_eur <- critical_point data_eur ;;
   lines <- mapM (summary_line data_pln data_eur) BDP_LEVELS ;;
   cp_pln <- critical_point data_pln ;;
   cp_eur <- critical_point data_eur ;;
   ret {| notices := out_pln ++ out_eur;
          marker_pln := mark_pln; marker_eur := mark_eur;
          summary := concat lines;
          critical_pln := cp_pln; critical_eur := cp_eur |})%py.

End WithFloat.
End Sweep.

(** ** analysis/python/regime_charts.py *)

Module Charts.
Import Results.
Section WithFloat.
Context {F : Type} `{PyFloat F}.

Definition load_ts (tree : Tree F) (regime : RegimeId) (bdp : Z)
    : result (list (TimeseriesRow F)) :=
  read_csv (timeseries tree regime bdp).

Definition load_term (tree : Tree F) (regime : RegimeId) (bdp : Z)
    : result (list (TerminalRow F)) :=
  read_csv (terminal tree regime bdp).

Definition BDP_SHOW : list Z := [0; 2000; 3000].

(** The three rows of panels of Figure 1. *)
Inductive Metric : Type := Inflation_ | TotalAdoption_ | Unemployment_.

Definition panel_metrics : list (Metric * Z) :=
  [(Inflation_, 100); (TotalAdoption_, 100); (Unemployment_, 100)].

Definition col_mean (m : Metric) (r : TimeseriesRow F) : F :=
  match m with
  | Inflation_ => Inflation_mean r
  | TotalAdoption_ => TotalAdoption_mean r
  | Unemployment_ => Unemployment_mean r
  end.

Definition col_p05 (m : Metric) (r : TimeseriesRow F) : F :=
  match m with
  | Inflation_ => Inflation_p05 r
  | TotalAdoption_ => TotalAdoption_p05 r
  | Unemployment_ => Unemployment_p05 r
  end.

Definition col_p95 (m : Metric) (r : TimeseriesRow F) : F :=
  match m with
  | Inflation_ => Inflation_p95 r
  | TotalAdoption_ => TotalAdoption_p95 r
  | Unemployment_ => Unemployment_p95 r
  end.

(** What the Figure 1 loop does that can be observed: a line with its
    band drawn on the panel [axes[row_idx, col_idx]], or a printed
    notice.  The drawing calls are recorded, not carried out: matplotlib
    refuses a line whose x and y differ in length, so the events of a
    column stand for what is drawn when the EUR series has as many months
    as the PLN one. *)
Inductive Event : Type :=
| Plot (row_idx col_idx : nat) (regime : RegimeId)
       (months mean p05 p95 : list F)
| Missing_data (bdp : Z).

Definition scaled (col : TimeseriesRow F -> F) (mult : Z)
    (ts : list (TimeseriesRow F)) : list F :=
  map (fun r => (col r * of_int mult)%py) ts.

Definition panel (row_idx col_idx : nat) (months : list F)
    (ts_pln ts_eur : list (TimeseriesRow F)) (m : Metric) (mult : Z)
    : list Event :=
  map (fun rt : RegimeId * list (TimeseriesRow F) =>
         let (regime, ts) := rt in
         Plot row_idx col_idx regime months
              (scaled (col_mean m) mult ts)
              (scaled (col_p05 m) mult ts)
              (scaled (col_p95 m) mult ts))
      [(pln, ts_pln); (eur, ts_eur)].

Fixpoint panels (row_idx col_idx : nat) (months : list F)
    (ts_pln ts_eur : list (TimeseriesRow F))
    (metrics : list (Metric * Z)) : list Event :=
  match metrics with
  | [] => []
  | (m, mult) :: metrics' =>
      panel row_idx col_idx months ts_pln ts_eur m mult
      ++ panels (S row_idx) col_idx months ts_pln ts_eur metrics'
  end.

(** One iteration of the Figure 1 loop: both loads sit in one [try]. *)
Definition figure1_column (tree : Tree F) (col_idx : nat) (bdp : Z)
    : result (list Event) :=
  try_except
    (ts_pln <- load_ts tree pln bdp ;;
     ts_eur <- load_ts tree eur bdp ;;
     let months := map (@Month F) ts_pln in
     ret (panels 0 col_idx months ts_pln ts_eur panel_metrics))%py
    FileNotFoundError
    (ret [Missing_data bdp]).

Fixpoint figure1_loop (tree : Tree F) (col_idx : nat) (levels : list Z)
    : result (list Event) :=
  match levels with
  | [] => ret []
  | bdp :: levels' =>
      (evs <- figure1_column tree col_idx bdp ;;
       rest <- figure1_loop tree (S col_idx) levels' ;;
       ret (evs ++ rest))%py
  end.

Definition figure1 (tree : Tree F) : result (list Event) :=
  figure1_loop tree 0 BDP_SHOW.

End WithFloat.
End Charts.

(** ** The arithmetic of the interpreter: IEEE 754 binary64 *)

Module Binary64.

Definition prec : Z := 53.
Definition emax : Z := 1024.

(** [float(n)], rounded to nearest, ties to even. *)
Definition of_int (n : Z) : spec_float :=
  binary_normalize prec emax n 0 false.

(** [int(x)] truncates toward zero; NaN raises [ValueError] and an
    infinity raises [OverflowError]. *)
Definition to_int (x : spec_float) : result Z :=
  match x with
  | S754_zero _ => ret 0
  | S754_finite s m e => ret (cond_Zopp s (Z.shiftl (Zpos m) e))
  | S754_infinity _ => raise OverflowError
  | S754_nan => raise ValueError
  end.

Definition isnan (x : spec_float) : bool :=
  match x with
  | S754_nan => true
  | _ => false
  end.

#[global] Instance binary64 : PyFloat spec_float := {|
  Py.of_int := of_int;
  Py.to_int := to_int;
  fadd := SFadd prec emax;
  fsub := SFsub prec emax;
  fmul := SFmul prec emax;
  fdiv := SFdiv prec emax;
  fabs := SFabs;
  fsqrt := SFsqrt prec emax;
  fltb := SFltb;
  Py.isnan := isnan;
  nan := S754_nan
|}.

End Binary64.

(** ** Exact arithmetic: the real numbers, with NaN for missing values *)

Module Exact.

Inductive xreal : Type :=
| NaN
| Real (r : R).

(** Truncation toward zero. *)
Definition trunc (r : R) : Z :=
  if Rle_dec 0 r then Int_part r else (- Int_part (- r))%Z.

Definition lift1 (f : R -> R) (x : xreal) : xreal :=
  match x with
  | Real a => Real (f a)
  | NaN => NaN
  end.

Definition lift2 (f : R -> R -> R) (x y : xreal) : xreal :=
  match x, y with
  | Real a, Real b => Real (f a b)
  | _, _ => NaN
  end.

Definition to_int (x : xreal) : result Z :=
  match x with
  | Real a => ret (trunc a)
  | NaN => raise ValueError
  end.

(** There is no infinity here: a quotient by zero is left undefined. *)
Definition div (x y : xreal) : xreal :=
  match x, y with
  | Real a, Real b => if Req_dec_T b 0 then NaN else Real (a / b)
  | _, _ => NaN
  end.

Definition sqrt (x : xreal) : xreal :=
  match x with
  | Real a => if Rlt_dec a 0 then NaN else Real (R_sqrt.sqrt a)
  | NaN => NaN
  end.

Definition ltb (x y : xreal) : bool :=
  match x, y with
  | Real a, Real b => if Rlt_dec a b then true else false
  | _, _ => false
  end.

Definition isnan (x : xreal) : bool :=
  match x with
  | NaN => true
  | Real _ => false
  end.

#[global] Instance exact : PyFloat xreal := {|
  of_int := fun n => Real (IZR n);
  Py.to_int := to_int;
  fadd := lift2 Rplus;
  fsub := lift2 Rminus;
  fmul := lift2 Rmult;
  fdiv := div;
  fabs := lift1 Rabs;
  fsqrt := sqrt;
  fltb := ltb;
  Py.isnan := isnan;
  nan := NaN
|}.

End Exact.

(** * Properties *)

Import Results.
Unset Implicit Arguments.

(** ** The concrete scenario *)

(** A terminal row with unemployment 0.10, market wage 3000, price level
    1.0 and no [EffectiveBDP] column; the remaining cells are arbitrary. *)
Definition scenario_row (adoption inflation exrate refrate npl : spec_float)
    : TerminalRow spec_float :=
  {| TotalAdoption := adoption;
     Inflation := inflation;
     Unemployment := decimal 10 2;
     ExRate := exrate;
     MarketWage := of_int 3000;
     RefRate := refrate;
     NPL := npl;
     PriceLevel := of_int 1;
     EffectiveBDP := None |}.

(** C1: in binary64 arithmetic, the row with unemployment 0.10, wage 3000,
    price level 1.0 and no EffectiveBDP, processed at the nominal transfer
    2000 with POPULATION = 100000 and MPC = 0.82, gives n_emp = 90000,
    n_unemp = 10000, y_emp = 5000, y_unemp = 2000, total_income =
    470000000, real consumption per capita exactly 3854.0, and a Gini that
    is the double nearest to (90000 * 10000 * 3000) / (100000 * 470000000),
    strictly between 0.0574 and 0.0575. *)
Theorem C1_concrete_scenario :
  forall adoption inflation exrate refrate npl : spec_float,
  Welfare.POPULATION = 100000 /\
  Welfare.MPC = decimal 82 2 /\
  exists l : Welfare.Locals,
    Welfare.row_locals
      (scenario_row adoption inflation exrate refrate npl) 2000 = inr l /\
    Welfare.n_emp l = 90000 /\
    Welfare.n_unemp l = 10000 /\
    Welfare.y_emp l = of_int 5000 /\
    Welfare.y_unemp l = of_int 2000 /\
    Welfare.total_income l = of_int 470000000 /\
    Welfare.total_income l
      = (of_int 90000 * of_int 5000 + of_int 10000 * of_int 2000)%py /\
    Welfare.real_cons_pc l = of_int 3854 /\
    Welfare.gini l
      = (of_int (90000 * 10000 * 3000) / of_int (100000 * 470000000))%py /\
    (decimal 574 4 < Welfare.gini l)%py = true /\
    (Welfare.gini l < decimal 575 4)%py = true.
Proof.
  intros adoption inflation exrate refrate npl.
  split; [reflexivity | split; [reflexivity | ]].
  eexists; split; [vm_compute; reflexivity | ].
  vm_compute; repeat split.
Qed.

(** ** The welfare derivation, in any arithmetic *)

Section WelfareFacts.
Context {F : Type} `{PyFloat F}.

(** The float whose integer part is the employed count. *)
Definition employed_float (r : TerminalRow F) : F :=
  ((of_int 1 - Unemployment r) * of_int Welfare.POPULATION)%py.

(** The transfer the code is meant to use: the row's own value when the
    column is there and holds a number, the nominal level otherwise. *)
Definition transfer_used (r : TerminalRow F) (bdp : Z) : F :=
  match EffectiveBDP r with
  | Some v => if isnan v then of_int bdp else v
  | None => of_int bdp
  end.

Lemma row_locals_defined (r : TerminalRow F) (bdp ne : Z) :
  to_int (employed_float r) = inr ne ->
  exists l, Welfare.row_locals r bdp = inr l /\ Welfare.n_emp l = ne.
Proof.
  intros Hne. unfold Welfare.row_locals, employed_float in *.
  rewrite Hne. cbv beta iota delta [bind].
  eexists. split; reflexivity.
Qed.

Lemma row_locals_raises (r : TerminalRow F) (bdp : Z) (e : exn) :
  to_int (employed_float r) = inl e ->
  Welfare.row_locals r bdp = inl e.
Proof.
  intros Hne. unfold Welfare.row_locals, employed_float in *.
  rewrite Hne. reflexivity.
Qed.

Lemma actual_bdp_transfer_used (r : TerminalRow F) (bdp : Z) :
  (let a := get (EffectiveBDP r) (of_int bdp) in
   if isnan a then of_int bdp else a) = transfer_used r bdp.
Proof.
  unfold transfer_used, get. destruct (EffectiveBDP r) as [v | ]; cbn.
  - reflexivity.
  - destruct (isnan (of_int bdp)); reflexivity.
Qed.

Lemma row_locals_inv (r : TerminalRow F) (bdp : Z) (l : Welfare.Locals) :
  Welfare.row_locals r bdp = inr l ->
  to_int (employed_float r) = inr (Welfare.n_emp l) /\
  Welfare.n_unemp l = Welfare.POPULATION - Welfare.n_emp l /\
  Welfare.actual_bdp l = transfer_used r bdp /\
  Welfare.y_emp l = (MarketWage r + Welfare.actual_bdp l)%py /\
  Welfare.y_unemp l = Welfare.actual_bdp l /\
  Welfare.total_income l
    = (of_int (Welfare.n_emp l) * Welfare.y_emp l
       + of_int (Welfare.n_unemp l) * Welfare.y_unemp l)%py /\
  Welfare.real_consumption l
    = (Welfare.total_income l * Welfare.MPC
       / Welfare.price_floor (PriceLevel r))%py /\
  Welfare.real_cons_pc l
    = (Welfare.real_consumption l / of_int Welfare.POPULATION)%py /\
  Welfare.gini l
    = (if (Welfare.total_income l > of_int 0)%py
          && (Welfare.n_emp l >? 0) && (Welfare.n_unemp l >? 0)
       then (of_int (Welfare.n_emp l * Welfare.n_unemp l)
             * fabs (Welfare.y_emp l - Welfare.y_unemp l)
             / (of_int Welfare.POPULATION * Welfare.total_income l))%py
       else of_int 0).
Proof.
  unfold Welfare.row_locals. fold (employed_float r).
  destruct (to_int (employed_float r)) as [e | ne];
    cbv beta iota delta [bind]; [discriminate | ].
  intros Hl.
  assert (El : l = _)
    by (symmetry;
        exact (f_equal (fun x => match x with inr l' => l' | inl _ => l end)
                       Hl)).
  clear Hl. rewrite El.
  split; [reflexivity | ]. split; [reflexivity | ].
  split; [exact (actual_bdp_transfer_used r bdp) | ].
  repeat split; reflexivity.
Qed.

End WelfareFacts.

(** ** What [int(x)] computes *)

Lemma Int_part_nonneg (x : R) : (0 <= x)%R -> 0 <= Int_part x.
Proof.
  intros Hx. destruct (base_Int_part x) as [_ Hlow].
  assert (Hlt : (IZR (-1) < IZR (Int_part x))%R) by (simpl; lra).
  apply lt_IZR in Hlt. lia.
Qed.

(** In exact arithmetic [int(x)] is the integer between zero and [x] that
    lies less than one away from [x]. *)
Lemma trunc_toward_zero (x : R) :
  (Rabs (IZR (Exact.trunc x)) <= Rabs x)%R /\
  (Rabs x < Rabs (IZR (Exact.trunc x)) + 1)%R /\
  (0 <= IZR (Exact.trunc x) * x)%R.
Proof.
  unfold Exact.trunc. destruct (Rle_dec 0 x) as [Hx | Hx].
  - destruct (base_Int_part x) as [Hle Hlow].
    pose proof (IZR_le _ _ (Int_part_nonneg _ Hx)) as Hn. simpl in Hn.
    rewrite !Rabs_pos_eq by lra. repeat split; try lra. nra.
  - assert (Hneg : (0 <= - x)%R) by lra.
    destruct (base_Int_part (- x)) as [Hle Hlow].
    pose proof (IZR_le _ _ (Int_part_nonneg _ Hneg)) as Hn. simpl in Hn.
    rewrite opp_IZR.
    rewrite (Rabs_left1 (- IZR (Int_part (- x)))) by lra.
    rewrite (Rabs_left x) by lra.
    repeat split; try lra. nra.
Qed.

(** In binary64 [int(x)] of a finite [x = (-1)^s * m * 2^e] is the quotient
    of the signed mantissa by the power of two, rounded toward zero. *)
Lemma binary64_to_int_finite (s : bool) (m : positive) (e : Z) :
  Binary64.to_int (S754_finite s m e)
  = inr (Z.quot (cond_Zopp s (Zpos m * 2 ^ Z.max 0 e)) (2 ^ Z.max 0 (- e))).
Proof.
  unfold Binary64.to_int, ret. f_equal.
  destruct (Z.le_gt_cases 0 e) as [He | He].
  - rewrite (Z.max_r 0 e) by lia. rewrite (Z.max_l 0 (- e)) by lia.
    rewrite Z.pow_0_r, Z.quot_1_r, Z.shiftl_mul_pow2 by lia.
    destruct s; reflexivity.
  - rewrite (Z.max_l 0 e) by lia. rewrite (Z.max_r 0 (- e)) by lia.
    rewrite Z.pow_0_r, Z.mul_1_r.
    assert (Hpow : 0 < 2 ^ (- e)) by (apply Z.pow_pos_nonneg; lia).
    replace (Z.shiftl (Z.pos m) e) with (Z.shiftr (Z.pos m) (- e))
      by (unfold Z.shiftr; f_equal; lia).
    rewrite Z.shiftr_div_pow2 by lia.
    destruct s; cbn [cond_Zopp].
    + rewrite Z.quot_opp_l by lia. f_equal.
      symmetry. apply Z.quot_div_nonneg; lia.
    + symmetry. apply Z.quot_div_nonneg; lia.
Qed.

(** ** The population split *)

(** A terminal row that only fixes the unemployment fraction. *)
Definition row_with_unemployment {F : Type} `{PyFloat F} (u : F)
    : TerminalRow F :=
  {| TotalAdoption := of_int 0;
     Inflation := of_int 0;
     Unemployment := u;
     ExRate := of_int 1;
     MarketWage := of_int 3000;
     RefRate := of_int 0;
     NPL := of_int 0;
     PriceLevel := of_int 1;
     EffectiveBDP := None |}.

(** Lines 42-43 of [compute_welfare]: the two counts, from the
    unemployment cell alone. *)
Definition population_split {F : Type} `{PyFloat F} (unemp : F)
    : result (Z * Z) :=
  (n_emp <- to_int ((of_int 1 - unemp) * of_int Welfare.POPULATION) ;;
   let n_unemp := (Welfare.POPULATION - n_emp)%Z in
   ret (n_emp, n_unemp))%py.

Lemma population_split_inv {F : Type} `{PyFloat F} (u : F) (ne nu : Z) :
  population_split u = inr (ne, nu) ->
  to_int ((of_int 1 - u) * of_int Welfare.POPULATION)%py = inr ne /\
  nu = Welfare.POPULATION - ne.
Proof.
  unfold population_split.
  destruct (to_int ((of_int 1 - u) * of_int Welfare.POPULATION)%py)
    as [e | n]; cbv beta iota delta [bind ret]; [discriminate | ].
  intros Hs.
  assert (Hne : n = ne) by exact (f_equal (fun x => match x with
                                                    | inr p => fst p
                                                    | inl _ => n
                                                    end) Hs).
  assert (Hnu : Welfare.POPULATION - n = nu)
    by exact (f_equal (fun x => match x with
                                | inr p => snd p
                                | inl _ => nu
                                end) Hs).
  subst n. split; [reflexivity | now symmetry].
Qed.

Lemma population_split_defined {F : Type} `{PyFloat F} (u : F) (ne : Z) :
  to_int ((of_int 1 - u) * of_int Welfare.POPULATION)%py = inr ne ->
  population_split u = inr (ne, Welfare.POPULATION - ne).
Proof.
  intros Hne. unfold population_split. rewrite Hne. reflexivity.
Qed.

Lemma population_split_raises {F : Type} `{PyFloat F} (u : F) (e : exn) :
  to_int ((of_int 1 - u) * of_int Welfare.POPULATION)%py = inl e ->
  population_split u = inl e.
Proof.
  intros Hne. unfold population_split. rewrite Hne. reflexivity.
Qed.

(** A row whose unemployment cell is empty: the product is NaN, [int()]
    raises, and neither the counts nor anything else of the derivation
    exists; the welfare run stops there. *)
Lemma C3_missing_unemployment_counterexample :
  population_split (S754_nan : spec_float) = inl ValueError /\
  Welfare.row_locals (row_with_unemployment S754_nan) 1000
  = inl ValueError /\
  Welfare.compute_welfare [row_with_unemployment S754_nan] 1000
  = inl ValueError.
Proof.
  split; [reflexivity | ]. split; [ | vm_compute; reflexivity].
  apply row_locals_raises. reflexivity.
Qed.

(** C3 (amended): whenever the derivation of a row returns, its counts are
    those of lines 42-43.  Whenever these lines return, the employed count
    is [int((1 - u) * POPULATION)], the unemployed count is
    [POPULATION - n_emp], and the two add up to 100000.  In exact
    arithmetic they return for every real u, and the employed count is
    (1 - u) * 100000 truncated toward zero: the integer of the same sign,
    no larger in magnitude and less than one away.  In binary64 they
    return exactly when the product (1 - u) * 100000 is a finite float,
    with the signed mantissa divided by the power of two and rounded
    toward zero. *)
Theorem C3_population_split :
  (forall (F : Type) (PF : PyFloat F) (r : TerminalRow F) (bdp : Z)
          (l : Welfare.Locals),
     Welfare.row_locals r bdp = inr l ->
     population_split (Unemployment r)
     = inr (Welfare.n_emp l, Welfare.n_unemp l)) /\
  (forall (F : Type) (PF : PyFloat F) (u : F) (ne nu : Z),
     population_split u = inr (ne, nu) ->
     to_int ((of_int 1 - u) * of_int Welfare.POPULATION)%py = inr ne /\
     nu = Welfare.POPULATION - ne /\
     ne + nu = 100000) /\
  (forall u : R,
     population_split (Exact.Real u)
     = inr (Exact.trunc ((1 - u) * 100000),
            100000 - Exact.trunc ((1 - u) * 100000)) /\
     (Rabs (IZR (Exact.trunc ((1 - u) * 100000)))
      <= Rabs ((1 - u) * 100000))%R /\
     (Rabs ((1 - u) * 100000)
      < Rabs (IZR (Exact.trunc ((1 - u) * 100000))) + 1)%R /\
     (0 <= IZR (Exact.trunc ((1 - u) * 100000)) * ((1 - u) * 100000))%R) /\
  (forall u : spec_float,
     match ((of_int 1 - u) * of_int Welfare.POPULATION)%py with
     | S754_nan => population_split u = inl ValueError
     | S754_infinity _ => population_split u = inl OverflowError
     | S754_zero _ => population_split u = inr (0, 100000)
     | S754_finite s m e =>
         population_split u
         = inr (Z.quot (cond_Zopp s (Zpos m * 2 ^ Z.max 0 e))
                       (2 ^ Z.max 0 (- e)),
                100000 - Z.quot (cond_Zopp s (Zpos m * 2 ^ Z.max 0 e))
                                (2 ^ Z.max 0 (- e)))
     end).
Proof.
  split; [ | split; [ | split]].
  - intros F PF r bdp l Hl.
    destruct (row_locals_inv _ _ _ Hl) as (Hemp & Hun & _).
    rewrite Hun. apply population_split_defined. exact Hemp.
  - intros F PF u ne nu Hs.
    destruct (population_split_inv _ _ _ Hs) as [Hne Hnu].
    split; [exact Hne | ]. split; [exact Hnu | ].
    rewrite Hnu. unfold Welfare.POPULATION. lia.
  - intros u.
    destruct (trunc_toward_zero ((1 - u) * 100000)) as (H1 & H2 & H3).
    split; [ | auto].
    apply (population_split_defined (Exact.Real u)). reflexivity.
  - intros u.
    destruct ((of_int 1 - u) * of_int Welfare.POPULATION)%py
      as [s | s | | s m e] eqn:Hx.
    + apply (population_split_defined u 0). rewrite Hx. reflexivity.
    + apply population_split_raises. rewrite Hx. reflexivity.
    + apply population_split_raises. rewrite Hx. reflexivity.
    + apply (population_split_defined u). rewrite Hx.
      apply binary64_to_int_finite.
Qed.

(** Evaluates the closed right-hand side of an equation. *)
Ltac eval_rhs H :=
  match type of H with
  | _ = ?q =>
      let v := eval vm_compute in q in
      replace q with v in H by (vm_compute; reflexivity)
  end.

(** The split at u = 0.07 in binary64 (93000 and 7000), as lines 42-43
    compute it and as the derivation of a row holds it; and at u = 1.5
    (-50000 and 150000). *)
Lemma C3_population_split_witness :
  population_split (decimal 7 2 : spec_float) = inr (93000, 7000) /\
  (exists l : Welfare.Locals,
     Welfare.row_locals
       (row_with_unemployment (F := spec_float) (decimal 7 2)) 1000 = inr l /\
     Welfare.n_emp l = 93000 /\ Welfare.n_unemp l = 7000 /\
     Welfare.n_emp l + Welfare.n_unemp l = 100000) /\
  population_split (decimal 15 1 : spec_float) = inr (-50000, 150000).
Proof.
  destruct C3_population_split as (Hrow & Hsum & _ & Hbin).
  split; [ | split].
  - pose proof (Hbin (decimal 7 2)) as Hb.
    remember ((of_int 1 - decimal 7 2) * of_int Welfare.POPULATION)%py
      as x eqn:Hx.
    vm_compute in Hx. subst x. eval_rhs Hb. exact Hb.
  - destruct (@row_locals_defined _ _
                (row_with_unemployment (F := spec_float) (decimal 7 2))
                1000 93000) as (l & Hl & Hemp);
      [vm_compute; reflexivity | ].
    exists l. split; [exact Hl | ].
    pose proof (Hrow _ _ _ _ _ Hl) as Hs.
    destruct (Hsum _ _ _ _ _ Hs) as (_ & Hun & Htotal).
    rewrite Hemp in Hun. unfold Welfare.POPULATION in Hun.
    split; [exact Hemp | ]. split; [lia | exact Htotal].
  - pose proof (Hbin (decimal 15 1)) as Hb.
    remember ((of_int 1 - decimal 15 1) * of_int Welfare.POPULATION)%py
      as x eqn:Hx.
    vm_compute in Hx. subst x. eval_rhs Hb. exact Hb.
Defined.

(** ** The transfer actually used *)

(** What [load_sweep] collects and prints, level by level. *)
Definition level_rows {F : Type} `{PyFloat F} (tree : Tree F)
    (regime : RegimeId) (bdp : Z) : list Sweep.SweepRow :=
  match terminal tree regime bdp with
  | Some df => map (Sweep.sweep_row bdp) df
  | None => []
  end.

Definition level_notices {F : Type} (tree : Tree F)
    (regime : RegimeId) (bdp : Z) : list Sweep.Notice :=
  match terminal tree regime bdp with
  | Some _ => []
  | None => [Sweep.MISSING regime bdp]
  end.

Lemma load_loop_eq {F : Type} `{PyFloat F} (tree : Tree F)
    (regime : RegimeId) (levels : list Z) :
  forall out rows,
  Sweep.load_loop tree regime levels out rows
  = (out ++ flat_map (level_notices tree regime) levels,
     rows ++ flat_map (level_rows tree regime) levels).
Proof.
  induction levels as [ | bdp levels IH]; intros out rows; cbn.
  - now rewrite !app_nil_r.
  - unfold level_rows, level_notices.
    destruct (terminal tree regime bdp) as [df | ]; rewrite IH; cbn;
      now rewrite <- ?app_assoc.
Qed.

Lemma load_sweep_eq {F : Type} `{PyFloat F} (tree : Tree F)
    (regime : RegimeId) :
  Sweep.load_sweep tree regime
  = (flat_map (level_notices tree regime) BDP_LEVELS,
     flat_map (level_rows tree regime) BDP_LEVELS).
Proof. unfold Sweep.load_sweep. now rewrite load_loop_eq. Qed.

(** C4: the transfer used for a row is its EffectiveBDP cell when the
    column is there and the cell is not NaN, and the nominal level of the
    file otherwise (column absent, or cell NaN).  It is what the welfare
    derivation binds to [actual_bdp], pays the unemployed and adds to the
    wage of the employed; and it is what the sweep loader stores under
    EffectiveBDP for every row it collects. *)
Theorem C4_effective_transfer :
  forall (F : Type) (PF : PyFloat F) (r : TerminalRow F) (bdp : Z),
  (forall v, EffectiveBDP r = Some v -> isnan v = false ->
             transfer_used r bdp = v) /\
  (forall v, EffectiveBDP r = Some v -> isnan v = true ->
             transfer_used r bdp = of_int bdp) /\
  (EffectiveBDP r = None -> transfer_used r bdp = of_int bdp) /\
  (forall l : Welfare.Locals,
     Welfare.row_locals r bdp = inr l ->
     Welfare.actual_bdp l = transfer_used r bdp /\
     Welfare.y_unemp l = transfer_used r bdp /\
     Welfare.y_emp l = (MarketWage r + transfer_used r bdp)%py) /\
  Sweep.EffectiveBDP (Sweep.sweep_row bdp r) = transfer_used r bdp /\
  (forall (tree : Tree F) (regime : RegimeId) (df : list (TerminalRow F)),
     In bdp BDP_LEVELS -> terminal tree regime bdp = Some df -> In r df ->
     In (Sweep.sweep_row bdp r) (snd (Sweep.load_sweep tree regime))).
Proof.
  intros F PF r bdp. unfold transfer_used.
  split; [ | split; [ | split; [ | split; [ | split]]]].
  - intros v Hv Hnan. now rewrite Hv, Hnan.
  - intros v Hv Hnan. now rewrite Hv, Hnan.
  - intros Hv. now rewrite Hv.
  - intros l Hl. destruct (row_locals_inv _ _ _ Hl) as (_ & _ & Ha & Hye & Hyu & _).
    unfold transfer_used in Ha. rewrite Hyu, Hye, Ha. repeat split.
  - unfold Sweep.sweep_row. cbn. apply actual_bdp_transfer_used.
  - intros tree regime df Hin Hdf Hr. rewrite load_sweep_eq. cbn [snd].
    apply in_flat_map. exists bdp. split; [exact Hin | ].
    unfold level_rows. rewrite Hdf. now apply in_map.
Qed.

(** A binary64 row with the given EffectiveBDP cell. *)
Definition row_with_effective (v : option spec_float)
    : TerminalRow spec_float :=
  {| TotalAdoption := decimal 5 1;
     Inflation := decimal 2 2;
     Unemployment := decimal 10 2;
     ExRate := of_int 4;
     MarketWage := of_int 3000;
     RefRate := decimal 5 2;
     NPL := decimal 3 2;
     PriceLevel := of_int 1;
     EffectiveBDP := v |}.

(** A tree whose only file is the PLN terminal file of level 2000. *)
Definition tree_one_file (df : list (TerminalRow spec_float))
    : Tree spec_float :=
  {| terminal := fun regime bdp =>
       match regime with
       | pln => if bdp =? 2000 then Some df else None
       | eur => None
       end;
     timeseries := fun _ _ => None |}.

(** At the nominal level 2000: a reported 1500 is used, a NaN cell and an
    absent column both give 2000. *)
Lemma C4_effective_transfer_witness :
  transfer_used (row_with_effective (Some (of_int 1500))) 2000 = of_int 1500 /\
  transfer_used (row_with_effective (Some S754_nan)) 2000 = of_int 2000 /\
  transfer_used (row_with_effective None) 2000 = of_int 2000 /\
  (exists l : Welfare.Locals,
     Welfare.row_locals (row_with_effective (Some (of_int 1500))) 2000
     = inr l /\
     Welfare.y_unemp l = of_int 1500 /\ Welfare.y_emp l = of_int 4500) /\
  In (Sweep.sweep_row 2000 (row_with_effective (Some S754_nan)))
     (snd (Sweep.load_sweep
             (tree_one_file [row_with_effective (Some S754_nan)]) pln)).
Proof.
  split; [ | split; [ | split; [ | split]]].
  - apply (proj1 (@C4_effective_transfer _ _
                    (row_with_effective (Some (of_int 1500))) 2000)
             (of_int 1500)); reflexivity.
  - apply (proj1 (proj2 (@C4_effective_transfer _ _
                           (row_with_effective (Some S754_nan)) 2000))
             S754_nan); reflexivity.
  - apply (proj1 (proj2 (proj2 (@C4_effective_transfer _ _
                                  (row_with_effective None) 2000))));
      reflexivity.
  - eexists. split; [vm_compute; reflexivity | ].
    vm_compute. split; reflexivity.
  - apply (proj2 (proj2 (proj2 (proj2 (proj2
             (@C4_effective_transfer _ _
                (row_with_effective (Some S754_nan)) 2000)))))
             (tree_one_file [row_with_effective (Some S754_nan)]) pln
             [row_with_effective (Some S754_nan)]).
    + vm_compute. tauto.
    + reflexivity.
    + left. reflexivity.
Defined.

(** ** Figure 1: one [try] around both loads *)

Section ChartsFacts.
Context {F : Type} `{PyFloat F}.

(** The events that draw something for a given regime. *)
Definition plots_regime (regime : RegimeId) (ev : @Charts.Event F) : bool :=
  match ev with
  | Charts.Plot _ _ regime' _ _ _ _ => RegimeId_eqb regime' regime
  | Charts.Missing_data _ => false
  end.

Definition is_plot (ev : @Charts.Event F) : bool :=
  match ev with
  | Charts.Plot _ _ _ _ _ _ _ => true
  | Charts.Missing_data _ => false
  end.

Lemma figure1_column_missing (tree : Tree F) (col_idx : nat) (bdp : Z) :
  timeseries tree pln bdp = None \/ timeseries tree eur bdp = None ->
  Charts.figure1_column tree col_idx bdp = inr [Charts.Missing_data bdp].
Proof.
  unfold Charts.figure1_column, Charts.load_ts, read_csv.
  intros [Hp | He].
  - rewrite Hp. reflexivity.
  - rewrite He. destruct (timeseries tree pln bdp); reflexivity.
Qed.

Lemma figure1_column_present (tree : Tree F) (col_idx : nat) (bdp : Z)
    (ts_pln ts_eur : list (TimeseriesRow F)) :
  timeseries tree pln bdp = Some ts_pln ->
  timeseries tree eur bdp = Some ts_eur ->
  Charts.figure1_column tree col_idx bdp
  = inr (Charts.panels 0 col_idx (map (@Month F) ts_pln) ts_pln ts_eur
                       Charts.panel_metrics).
Proof.
  unfold Charts.figure1_column, Charts.load_ts, read_csv.
  intros Hp He. rewrite Hp, He. reflexivity.
Qed.

End ChartsFacts.

(** C10: one iteration of the Figure 1 loop loads the PLN and the EUR time
    series inside the same [try].  If either file is missing, the iteration
    ends with the printed notice alone: it raises nothing and draws nothing
    for either regime, whatever the other file holds.  If both are there,
    each of the three panels of the column gets the PLN line and the EUR
    line, in this order. *)
Theorem C10_single_try_scope :
  forall (F : Type) (PF : PyFloat F) (tree : Tree F) (col_idx : nat)
         (bdp : Z),
  (timeseries tree pln bdp = None \/ timeseries tree eur bdp = None ->
   Charts.figure1_column tree col_idx bdp
   = inr [Charts.Missing_data bdp] /\
   forall evs, Charts.figure1_column tree col_idx bdp = inr evs ->
               filter is_plot evs = []) /\
  (forall ts_pln ts_eur,
     timeseries tree pln bdp = Some ts_pln ->
     timeseries tree eur bdp = Some ts_eur ->
     exists evs,
       Charts.figure1_column tree col_idx bdp = inr evs /\
       map (fun ev => match ev with
                      | Charts.Plot row _ regime _ _ _ _ => Some (row, regime)
                      | Charts.Missing_data _ => None
                      end) evs
       = [Some (0%nat, pln); Some (0%nat, eur);
          Some (1%nat, pln); Some (1%nat, eur);
          Some (2%nat, pln); Some (2%nat, eur)] /\
       length (filter (plots_regime pln) evs) = 3%nat /\
       length (filter (plots_regime eur) evs) = 3%nat).
Proof.
  intros F PF tree col_idx bdp. split.
  - intros Hmiss. rewrite (figure1_column_missing _ _ _ Hmiss).
    split; [reflexivity | ].
    intros evs Hevs. injection Hevs as <-. reflexivity.
  - intros ts_pln ts_eur Hp He.
    rewrite (figure1_column_present _ _ _ _ _ Hp He).
    eexists. split; [reflexivity | ]. cbn. repeat split.
Qed.

(** A one-month series. *)
Definition one_month : list (TimeseriesRow spec_float) :=
  [ {| Month := of_int 1;
       Inflation_mean := decimal 2 2; Inflation_p05 := decimal 1 2;
       Inflation_p95 := decimal 3 2;
       TotalAdoption_mean := decimal 5 1; TotalAdoption_p05 := decimal 4 1;
       TotalAdoption_p95 := decimal 6 1;
       Unemployment_mean := decimal 7 2; Unemployment_p05 := decimal 6 2;
       Unemployment_p95 := decimal 8 2 |} ].

(** A tree holding the PLN series of level 2000 but not the EUR one. *)
Definition tree_pln_only : Tree spec_float :=
  {| terminal := fun _ _ => None;
     timeseries := fun regime bdp =>
       match regime with
       | pln => if bdp =? 2000 then Some one_month else None
       | eur => None
       end |}.

(** A tree holding both series of level 2000. *)
Definition tree_both : Tree spec_float :=
  {| terminal := fun _ _ => None;
     timeseries := fun _ bdp =>
       if bdp =? 2000 then Some one_month else None |}.

(** With the PLN series there and the EUR file missing nothing is drawn;
    with both there six lines are. *)
Lemma C10_single_try_scope_witness :
  Charts.figure1_column tree_pln_only 1 2000
  = inr [Charts.Missing_data 2000] /\
  exists evs,
    Charts.figure1_column tree_both 1 2000 = inr evs /\
    length (filter (plots_regime pln) evs) = 3%nat /\
    length (filter (plots_regime eur) evs) = 3%nat.
Proof.
  split.
  - apply (proj1 (@C10_single_try_scope _ _ tree_pln_only 1 2000)).
    right. reflexivity.
  - destruct (proj2 (@C10_single_try_scope _ _ tree_both 1 2000)
                one_month one_month eq_refl eq_refl)
      as (evs & Hevs & _ & Hp & He).
    exists evs. repeat split; assumption.
Defined.

(** ** The order of floats *)

(** What the proofs about [max] and [idxmax] need of [<] and of [int()]:
    a strict order that is total on the numbers, and an [int()] that can
    only fail with [ValueError] or [OverflowError]. *)
Class FloatLaws (F : Type) `{PyFloat F} : Prop := {
  fltb_irrefl : forall x : F, (x < x)%py = false;
  fltb_trans : forall x y z : F,
    (x < y)%py = true -> (y < z)%py = true -> (x < z)%py = true;
  fltb_cotrans : forall x y z : F,
    isnan y = false -> (x < z)%py = true ->
    (x < y)%py = true \/ (y < z)%py = true;
  to_int_exn : forall (x : F) (e : exn),
    to_int x = inl e -> e = ValueError \/ e = OverflowError
}.

Arguments FloatLaws F {_}.

(** Binary64: [SFcompare] orders the numbers as the lexicographic order
    of (class, exponent, mantissa), negated for negative numbers. *)
Definition order_key (x : spec_float) : Z * Z * Z :=
  match x with
  | S754_infinity true => (-2, 0, 0)
  | S754_finite true m e => (-1, - e, - Zpos m)
  | S754_zero _ => (0, 0, 0)
  | S754_nan => (0, 0, 0)
  | S754_finite false m e => (1, e, Zpos m)
  | S754_infinity false => (2, 0, 0)
  end.

Definition key_lt (a b : Z * Z * Z) : Prop :=
  fst (fst a) < fst (fst b) \/
  (fst (fst a) = fst (fst b) /\
   (snd (fst a) < snd (fst b) \/
    (snd (fst a) = snd (fst b) /\ snd a < snd b))).

Lemma SFltb_key (x y : spec_float) :
  Binary64.isnan x = false -> Binary64.isnan y = false ->
  (SFltb x y = true <-> key_lt (order_key x) (order_key y)).
Proof.
  unfold SFltb, key_lt.
  destruct x as [s1 | s1 | | s1 m1 e1]; destruct y as [s2 | s2 | | s2 m2 e2];
    try discriminate; intros _ _;
    try destruct s1; try destruct s2; cbn;
    try (split; [ (discriminate || (intros _; lia))
                | (intros _; reflexivity) || lia ]).
  all: change (PosDef.Pos.compare_cont Eq m1 m2) with (Pos.compare m1 m2).
  all: destruct (Z.compare_spec e1 e2); destruct (Pos.compare_spec m1 m2);
    cbn; split; try discriminate; try lia; try reflexivity.
Qed.

Lemma SFltb_not_nan (x y : spec_float) :
  SFltb x y = true ->
  Binary64.isnan x = false /\ Binary64.isnan y = false.
Proof.
  destruct x, y; cbn; try discriminate; auto.
Qed.

#[global] Instance binary64_laws : FloatLaws spec_float.
Proof.
  split.
  - intros x. cbn. destruct (Binary64.isnan x) eqn:Hx.
    + destruct x; try discriminate. reflexivity.
    + destruct (SFltb x x) eqn:Hlt; [ | reflexivity].
      apply SFltb_key in Hlt; trivial. unfold key_lt in Hlt. lia.
  - cbn. intros x y z Hxy Hyz.
    destruct (SFltb_not_nan _ _ Hxy) as [Hx Hy].
    destruct (SFltb_not_nan _ _ Hyz) as [_ Hz].
    apply SFltb_key in Hxy, Hyz; trivial. apply SFltb_key; trivial.
    unfold key_lt in *. lia.
  - cbn. intros x y z Hy Hxz.
    destruct (SFltb_not_nan _ _ Hxz) as [Hx Hz].
    apply SFltb_key in Hxz; trivial.
    rewrite !SFltb_key by trivial. unfold key_lt in *. lia.
  - cbn. intros [s | s | | s m e] e'; cbn; try discriminate;
      intros He; injection He as <-; auto.
Qed.

#[global] Instance exact_laws : FloatLaws Exact.xreal.
Proof.
  split.
  - intros [ | a]; cbn; [reflexivity | ].
    destruct (Rlt_dec a a); [lra | reflexivity].
  - intros [ | a] [ | b] [ | c]; cbn; try discriminate.
    destruct (Rlt_dec a b), (Rlt_dec b c), (Rlt_dec a c);
      try discriminate; try reflexivity; lra.
  - intros [ | a] [ | b] [ | c]; cbn; try discriminate.
    intros _. destruct (Rlt_dec a c), (Rlt_dec a b), (Rlt_dec b c);
      try discriminate; auto; lra.
  - intros [ | a] e; cbn; try discriminate.
    intros He; injection He as <-; auto.
Qed.

(** Decimal literals in exact arithmetic. *)
Lemma exact_decimal (n : Z) (k : nat) :
  decimal n k = Exact.Real (IZR n / IZR (10 ^ Z.of_nat k)).
Proof.
  unfold decimal. cbn. destruct (Req_dec_T _ _) as [Hz | Hz]; [ | reflexivity].
  exfalso. apply eq_IZR_R0 in Hz.
  assert (0 < 10 ^ Z.of_nat k) by (apply Z.pow_pos_nonneg; lia). lia.
Qed.

(** ** The price floor *)

(** The larger of a positive float [c] and any float [p], as [max(c, p)]
    computes it, is at least [c], above zero, not a zero and not NaN. *)
Lemma binary64_floor (c p : spec_float) :
  SFltb (S754_zero false) c = true ->
  SFleb c (if SFltb c p then p else c) = true /\
  SFltb (S754_zero false) (if SFltb c p then p else c) = true /\
  SFeqb (if SFltb c p then p else c) (S754_zero false) = false /\
  Binary64.isnan (if SFltb c p then p else c) = false.
Proof.
  intros Hc.
  assert (Hcc : SFleb c c = true).
  { destruct c as [s | [ | ] | | [ | ] m e]; try discriminate; cbn;
      [reflexivity | ].
    rewrite Z.compare_refl.
    change (PosDef.Pos.compare_cont Eq m m) with (Pos.compare m m).
    now rewrite Pos.compare_refl. }
  assert (Hpos : forall x, SFltb (S754_zero false) x = true ->
                           SFeqb x (S754_zero false) = false /\
                           Binary64.isnan x = false).
  { intros [s | [ | ] | | [ | ] m e]; try discriminate; auto. }
  destruct (SFltb c p) eqn:Hlt.
  - assert (Hp : SFltb (S754_zero false) p = true)
      by exact (@fltb_trans spec_float _ _ _ _ _ Hc Hlt).
    destruct (Hpos p Hp) as [Hz Hn]. repeat split; trivial.
    unfold SFltb in Hlt. unfold SFleb.
    destruct (SFcompare c p) as [[ | | ] | ]; try discriminate; reflexivity.
  - destruct (Hpos c Hc) as [Hz Hn]. repeat split; trivial.
Qed.

(** C8: real consumption is total income times MPC divided by
    [max(0.01, price)].  In exact arithmetic that divisor is the larger of
    1/100 and the price for every real price, zero and negative ones
    included, hence at least 1/100, and the quotient is an ordinary
    division; a NaN price gives the divisor 1/100.  In binary64 the divisor
    is the price when the price compares greater than the double 0.01 and
    the double 0.01 otherwise (NaN, zeros, negatives, minus infinity); it
    is never below 0.01, always above zero, never a zero and never NaN. *)
Theorem C8_price_floor :
  (forall (F : Type) (PF : PyFloat F) (r : TerminalRow F) (bdp : Z)
          (l : Welfare.Locals),
     Welfare.row_locals r bdp = inr l ->
     Welfare.real_consumption l
     = (Welfare.total_income l * Welfare.MPC
        / Welfare.price_floor (PriceLevel r))%py) /\
  (forall p : R,
     Welfare.price_floor (Exact.Real p) = Exact.Real (Rmax (1 / 100) p) /\
     (1 / 100 <= Rmax (1 / 100) p)%R /\
     forall a : R,
       (Exact.Real a / Welfare.price_floor (Exact.Real p))%py
       = Exact.Real (a / Rmax (1 / 100) p)) /\
  Welfare.price_floor Exact.NaN = Exact.Real (1 / 100) /\
  (forall p : spec_float,
     (SFltb (decimal 1 2) p = true -> Welfare.price_floor p = p) /\
     (SFltb (decimal 1 2) p = false ->
      Welfare.price_floor p = decimal 1 2) /\
     SFleb (decimal 1 2) (Welfare.price_floor p) = true /\
     SFltb (of_int 0) (Welfare.price_floor p) = true /\
     SFeqb (Welfare.price_floor p) (of_int 0) = false /\
     Binary64.isnan (Welfare.price_floor p) = false).
Proof.
  split; [ | split; [ | split]].
  - intros F PF r bdp l Hl.
    now destruct (row_locals_inv _ _ _ Hl) as (_ & _ & _ & _ & _ & _ & Hrc & _).
  - intros p.
    assert (Hfloor : Welfare.price_floor (Exact.Real p)
                     = Exact.Real (Rmax (1 / 100) p)).
    { unfold Welfare.price_floor, max, fgtb. rewrite exact_decimal.
      change (IZR (10 ^ Z.of_nat 2)) with 100%R. cbn.
      unfold Rmax.
      destruct (Rlt_dec (1 / 100) p), (Rle_dec (1 / 100) p);
        try reflexivity; try lra.
      f_equal. lra. }
    assert (Hge : (1 / 100 <= Rmax (1 / 100) p)%R) by apply Rmax_l.
    split; [exact Hfloor | split; [exact Hge | ]].
    intros a. rewrite Hfloor. cbn.
    destruct (Req_dec_T (Rmax (1 / 100) p) 0); [lra | reflexivity].
  - unfold Welfare.price_floor, max, fgtb. rewrite exact_decimal.
    reflexivity.
  - intros p.
    assert (Hcases : Welfare.price_floor p
                     = if SFltb (decimal 1 2) p then p else decimal 1 2)
      by reflexivity.
    rewrite Hcases. clear Hcases.
    assert (Hc : SFltb (S754_zero false) (decimal 1 2) = true)
      by (vm_compute; reflexivity).
    change (of_int 0 : spec_float) with (S754_zero false).
    generalize dependent (decimal 1 2 : spec_float).
    intros c Hc.
    destruct (binary64_floor c p Hc) as (H1 & H2 & H3 & H4).
    destruct (SFltb c p); repeat split; trivial; discriminate.
Qed.

(** Prices 0, -5 and NaN are floored to the double 0.01, the price 2.5
    is kept; in exact arithmetic a total of 1000 at price 0 is divided by
    1/100. *)
Lemma C8_price_floor_witness :
  Welfare.price_floor (of_int 0 : spec_float) = decimal 1 2 /\
  Welfare.price_floor (of_int (-5) : spec_float) = decimal 1 2 /\
  Welfare.price_floor S754_nan = decimal 1 2 /\
  Welfare.price_floor (decimal 25 1 : spec_float) = decimal 25 1 /\
  (Exact.Real 1000 / Welfare.price_floor (Exact.Real 0))%py
  = Exact.Real (1000 / Rmax (1 / 100) 0) /\
  (exists l : Welfare.Locals,
     Welfare.row_locals (row_with_effective None) 2000 = inr l /\
     Welfare.real_consumption l
     = (Welfare.total_income l * Welfare.MPC
        / Welfare.price_floor (of_int 1))%py).
Proof.
  destruct C8_price_floor as (Hgen & Hexact & _ & Hbin).
  split; [ | split; [ | split; [ | split; [ | split]]]].
  - apply (proj1 (proj2 (Hbin (of_int 0)))). vm_compute. reflexivity.
  - apply (proj1 (proj2 (Hbin (of_int (-5))))). vm_compute. reflexivity.
  - apply (proj1 (proj2 (Hbin S754_nan))). vm_compute. reflexivity.
  - apply (proj1 (Hbin (decimal 25 1))). vm_compute. reflexivity.
  - apply (proj2 (proj2 (Hexact 0%R))).
  - destruct (@row_locals_defined _ _ (row_with_effective None) 2000 90000)
      as (l & Hl & _); [vm_compute; reflexivity | ].
    exists l. split; [exact Hl | ].
    apply (Hgen _ _ (row_with_effective None) 2000 l Hl).
Defined.

(** ** The Gini coefficient of the two-class split *)

(** The inequality behind the bound: with both classes populated and
    non-negative incomes, the numerator of the Gini never exceeds its
    denominator. *)
Lemma gini_numerator_bound (ne nu ye yu : R) :
  (0 < ne)%R -> (0 < nu)%R -> (0 <= ye)%R -> (0 <= yu)%R ->
  (ne * nu * Rabs (ye - yu) <= (ne + nu) * (ne * ye + nu * yu))%R.
Proof.
  intros Hne Hnu Hye Hyu.
  assert (Habs : (Rabs (ye - yu) <= ye + yu)%R).
  { unfold Rabs. destruct (Rcase_abs (ye - yu)); lra. }
  assert (Hnn : (0 < ne * nu)%R) by nra.
  assert (H1 : (ne * nu * Rabs (ye - yu) <= ne * nu * (ye + yu))%R) by nra.
  assert (H2 : (0 <= ne * ne * ye)%R) by nra.
  assert (H3 : (0 <= nu * nu * yu)%R) by nra.
  nra.
Qed.

(** The sign of binary64 results: a float is NaN or has its sign bit
    clear.  Products and quotients of such floats are such floats. *)
Definition sign_clear (x : spec_float) : bool :=
  match x with
  | S754_nan => true
  | S754_zero s | S754_infinity s | S754_finite s _ _ => negb s
  end.

Lemma binary_round_aux_sign (prec emax m e : Z) (l : location) :
  sign_clear (binary_round_aux prec emax false m e l) = true.
Proof.
  unfold binary_round_aux.
  destruct (shr_fexp prec emax m e l) as [mrs' e'].
  destruct (shr_fexp prec emax _ e' loc_Exact) as [mrs'' e''].
  destruct (shr_m mrs''); [reflexivity | | reflexivity].
  destruct (e'' <=? emax - prec); reflexivity.
Qed.

Lemma SFmul_sign (prec emax : Z) (x y : spec_float) :
  sign_clear x = true -> sign_clear y = true ->
  sign_clear (SFmul prec emax x y) = true.
Proof.
  destruct x as [[ | ] | [ | ] | | [ | ] mx ex];
    destruct y as [[ | ] | [ | ] | | [ | ] my ey];
    try discriminate; intros _ _; try reflexivity.
  apply binary_round_aux_sign.
Qed.

Lemma SFdiv_sign (prec emax : Z) (x y : spec_float) :
  sign_clear x = true -> sign_clear y = true ->
  sign_clear (SFdiv prec emax x y) = true.
Proof.
  destruct x as [[ | ] | [ | ] | | [ | ] mx ex];
    destruct y as [[ | ] | [ | ] | | [ | ] my ey];
    try discriminate; intros _ _; try reflexivity.
  cbn. destruct (SFdiv_core_binary _ _ _ _ _ _) as [[mz ez] lz].
  apply binary_round_aux_sign.
Qed.

Lemma SFabs_sign (x : spec_float) : sign_clear (SFabs x) = true.
Proof. destruct x; reflexivity. Qed.

Lemma of_int_sign (n : Z) :
  0 <= n -> sign_clear (Binary64.of_int n) = true.
Proof.
  intros Hn. destruct n as [ | p | p]; [reflexivity | | lia].
  unfold Binary64.of_int, binary_normalize, binary_round.
  destruct (shl_align _ _ _) as [mz ez].
  apply binary_round_aux_sign.
Qed.

Lemma SFltb_zero_sign (x : spec_float) :
  SFltb (S754_zero false) x = true -> sign_clear x = true.
Proof. destruct x as [s | [ | ] | | [ | ] m e]; cbn; congruence. Qed.

Lemma sign_clear_nonneg (x : spec_float) :
  sign_clear x = true ->
  Binary64.isnan x = true \/ SFleb (S754_zero false) x = true.
Proof.
  destruct x as [[ | ] | [ | ] | | [ | ] m e]; cbn; try discriminate; auto.
Qed.

(** In binary64 the Gini of a row is never negative. *)
Lemma binary64_gini_sign (r : TerminalRow spec_float) (bdp : Z)
    (l : Welfare.Locals) :
  Welfare.row_locals r bdp = inr l -> sign_clear (Welfare.gini l) = true.
Proof.
  intros Hl.
  destruct (row_locals_inv _ _ _ Hl) as (_ & _ & _ & _ & _ & _ & _ & _ & Hg).
  rewrite Hg. clear Hg.
  destruct (Welfare.total_income l > of_int 0)%py eqn:Ht;
    [ | reflexivity].
  destruct (Z.gtb_spec (Welfare.n_emp l) 0) as [Hne | Hne];
    [ | reflexivity].
  destruct (Z.gtb_spec (Welfare.n_unemp l) 0) as [Hnu | Hnu];
    [ | reflexivity].
  cbn [andb].
  apply (SFdiv_sign Binary64.prec Binary64.emax).
  - apply (SFmul_sign Binary64.prec Binary64.emax).
    + apply of_int_sign. nia.
    + apply SFabs_sign.
  - apply (SFmul_sign Binary64.prec Binary64.emax).
    + apply of_int_sign. unfold Welfare.POPULATION. lia.
    + apply SFltb_zero_sign. exact Ht.
Qed.

(** A binary64 row with the given unemployment, wage and EffectiveBDP
    cell, at price level 1. *)
Definition income_row (u wage : spec_float) (eff : option spec_float)
    : TerminalRow spec_float :=
  {| TotalAdoption := decimal 5 1;
     Inflation := decimal 2 2;
     Unemployment := u;
     ExRate := of_int 4;
     MarketWage := wage;
     RefRate := decimal 5 2;
     NPL := decimal 3 2;
     PriceLevel := of_int 1;
     EffectiveBDP := eff |}.

(** Two populated splits with positive total income whose Gini is not in
    [0, 1].  With half the population unemployed, wage 3000 and a
    reported transfer of -1000, the incomes are 2000 and -1000 and the
    Gini is 1.5.  With unemployment 0.10 and a wage of 1e308, total income
    overflows to infinity and the Gini is NaN. *)
Lemma C2_gini_out_of_range_counterexample :
  (exists l : Welfare.Locals,
     Welfare.row_locals
       (income_row (decimal 5 1) (of_int 3000) (Some (of_int (-1000))))
       2000 = inr l /\
     Welfare.n_emp l = 50000 /\ Welfare.n_unemp l = 50000 /\
     Welfare.y_emp l = of_int 2000 /\
     Welfare.y_unemp l = of_int (-1000) /\
     Welfare.total_income l = of_int 50000000 /\
     Welfare.gini l = decimal 15 1 /\
     SFltb (of_int 1) (Welfare.gini l) = true) /\
  (exists l : Welfare.Locals,
     Welfare.row_locals
       (income_row (decimal 10 2) (of_int (10 ^ 308)) None) 2000 = inr l /\
     Welfare.n_emp l = 90000 /\ Welfare.n_unemp l = 10000 /\
     SFltb (of_int 0) (Welfare.y_emp l) = true /\
     Welfare.y_unemp l = of_int 2000 /\
     Welfare.total_income l = S754_infinity false /\
     Welfare.gini l = S754_nan).
Proof.
  split.
  - eexists. split; [vm_compute; reflexivity | ].
    vm_compute. repeat split.
  - eexists. split; [vm_compute; reflexivity | ].
    vm_compute. repeat split.
Qed.

(** C2 (amended): whenever the derivation of a row returns, the Gini is
    exactly 0 if total income does not compare greater than zero or a
    class is empty (in any arithmetic).  In exact arithmetic, when both
    class incomes are non-negative numbers, total income and the Gini are
    numbers, the Gini lies in [0, 1], and it is 0 when total income is
    not positive.  In binary64 the Gini of a row is never negative: it is
    NaN or compares greater than or equal to zero. *)
Theorem C2_gini_range :
  (forall (F : Type) (PF : PyFloat F) (r : TerminalRow F) (bdp : Z)
          (l : Welfare.Locals),
     Welfare.row_locals r bdp = inr l ->
     (Welfare.total_income l > of_int 0)%py = false \/
     Welfare.n_emp l <= 0 \/ Welfare.n_unemp l <= 0 ->
     Welfare.gini l = of_int 0) /\
  (forall (r : TerminalRow Exact.xreal) (bdp : Z) (l : Welfare.Locals)
          (ye yu : R),
     Welfare.row_locals r bdp = inr l ->
     Welfare.y_emp l = Exact.Real ye ->
     Welfare.y_unemp l = Exact.Real yu ->
     (0 <= ye)%R -> (0 <= yu)%R ->
     exists t g : R,
       Welfare.total_income l = Exact.Real t /\
       Welfare.gini l = Exact.Real g /\
       (0 <= g <= 1)%R /\
       ((t <= 0)%R -> g = 0%R)) /\
  (forall (r : TerminalRow spec_float) (bdp : Z) (l : Welfare.Locals),
     Welfare.row_locals r bdp = inr l ->
     Binary64.isnan (Welfare.gini l) = true \/
     SFleb (of_int 0) (Welfare.gini l) = true).
Proof.
  split; [ | split].
  3:{ intros r bdp l Hl. apply sign_clear_nonneg.
      now apply binary64_gini_sign with r bdp. }
  - intros F PF r bdp l Hl Hzero.
    destruct (row_locals_inv _ _ _ Hl) as (_ & _ & _ & _ & _ & _ & _ & _ & Hg).
    rewrite Hg.
    destruct Hzero as [Ht | [Hne | Hnu]].
    + rewrite Ht. reflexivity.
    + destruct (Z.gtb_spec (Welfare.n_emp l) 0) as [Hpos | _]; [lia | ].
      now rewrite andb_false_r.
    + destruct (Z.gtb_spec (Welfare.n_unemp l) 0) as [Hpos | _]; [lia | ].
      now rewrite andb_false_r.
  - intros r bdp l ye yu Hl Hye Hyu Hye0 Hyu0.
    destruct (row_locals_inv _ _ _ Hl)
      as (_ & Hun & _ & _ & _ & Ht & _ & _ & Hg).
    rewrite Hye, Hyu in Ht. cbn in Ht.
    exists (IZR (Welfare.n_emp l) * ye + IZR (Welfare.n_unemp l) * yu)%R.
    rewrite Hg, Hye, Hyu, Ht. unfold fgtb. cbn.
    set (ne := Welfare.n_emp l) in *. set (nu := Welfare.n_unemp l) in *.
    destruct (Rlt_dec 0 (IZR ne * ye + IZR nu * yu)) as [Htpos | Htneg];
      cbn [andb].
    2:{ exists 0%R. repeat split; try lra. }
    destruct (Z.gtb_spec ne 0) as [Hne | Hne]; cbn [andb].
    2:{ exists 0%R. repeat split; try lra. }
    destruct (Z.gtb_spec nu 0) as [Hnu | Hnu]; cbn [andb].
    2:{ exists 0%R. repeat split; try lra. }
    assert (Hner : (0 < IZR ne)%R) by (apply IZR_lt; lia).
    assert (Hnur : (0 < IZR nu)%R) by (apply IZR_lt; lia).
    assert (Hsum : (IZR ne + IZR nu = 100000)%R).
    { rewrite <- plus_IZR. f_equal. unfold Welfare.POPULATION in Hun. lia. }
    pose proof (gini_numerator_bound _ _ _ _ Hner Hnur Hye0 Hyu0) as Hbound.
    rewrite Hsum in Hbound.
    unfold Welfare.POPULATION.
    destruct (Req_dec_T (100000 * (IZR ne * ye + IZR nu * yu)) 0)
      as [Hz | Hz]; [lra | ].
    eexists. split; [reflexivity | ]. split; [reflexivity | ].
    rewrite mult_IZR.
    assert (Hden : (0 < 100000 * (IZR ne * ye + IZR nu * yu))%R) by lra.
    assert (Hnum : (0 <= IZR ne * IZR nu * Rabs (ye - yu))%R).
    { apply Rmult_le_pos; [nra | apply Rabs_pos]. }
    split; [split | lra].
    + apply Rmult_le_pos; [exact Hnum | ].
      left. now apply Rinv_0_lt_compat.
    + apply Rmult_le_reg_r
        with (r := (100000 * (IZR ne * ye + IZR nu * yu))%R); [exact Hden | ].
      unfold Rdiv. rewrite Rmult_assoc, Rinv_l by lra. lra.
Qed.

(** With nobody unemployed the binary64 Gini is 0; with a quarter
    unemployed, wage 3000 and transfer 1000, the exact Gini is a number
    in [0, 1]. *)
Lemma C2_gini_range_witness :
  (exists l : Welfare.Locals,
     Welfare.row_locals
       (row_with_unemployment (F := spec_float) (of_int 0)) 1000 = inr l /\
     Welfare.n_unemp l = 0 /\
     Welfare.gini l = of_int 0) /\
  (exists (l : Welfare.Locals) (t g : R),
     Welfare.row_locals (row_with_unemployment (Exact.Real (1 / 4))) 1000
     = inr l /\
     Welfare.total_income l = Exact.Real t /\
     Welfare.gini l = Exact.Real g /\
     (0 <= g <= 1)%R).
Proof.
  destruct C2_gini_range as (Hgen & Hexact & _).
  split.
  - destruct (@row_locals_defined _ _
                (row_with_unemployment (F := spec_float) (of_int 0))
                1000 100000) as (l & Hl & Hemp);
      [vm_compute; reflexivity | ].
    destruct (row_locals_inv _ _ _ Hl) as (_ & Hun & _).
    assert (Hzero : Welfare.n_unemp l = 0).
    { rewrite Hun, Hemp. reflexivity. }
    exists l. split; [exact Hl | ]. split; [exact Hzero | ].
    apply (Hgen _ _ _ _ _ Hl). right. right. rewrite Hzero. discriminate.
  - destruct (@row_locals_defined _ _
                (row_with_unemployment (Exact.Real (1 / 4))) 1000
                (Exact.trunc ((1 - 1 / 4) * 100000)))
      as (l & Hl & Hemp); [reflexivity | ].
    destruct (row_locals_inv _ _ _ Hl) as (_ & _ & Ha & Hye & Hyu & _).
    rewrite Ha in Hye, Hyu. cbn in Hye, Hyu.
    destruct (Hexact _ _ _ _ _ Hl Hye Hyu) as (t & g & Ht & Hg & Hrange & _);
      [lra | lra | ].
    exists l, t, g. repeat split; trivial; apply Hrange.
Defined.

(** ** The depth of the pairwise summation *)

(** The recursion of [pairwise_sum] never runs out of depth: any two
    depths no smaller than the length of the column give the same sum. *)
Lemma pairwise_sum_depth {F : Type} `{PyFloat F} (d : nat) :
  forall (d' : nat) (l : list F),
  (length l <= d)%nat -> (length l <= d')%nat ->
  Pandas.pairwise_sum d l = Pandas.pairwise_sum d' l.
Proof.
  induction d as [ | d IH]; intros d' l Hd Hd'.
  - destruct l; [ | cbn in Hd; lia]. destruct d'; reflexivity.
  - cbn [Pandas.pairwise_sum].
    destruct (length l <=? 128)%nat eqn:Hn.
    + destruct d'; cbn [Pandas.pairwise_sum]; now rewrite Hn.
    + apply Nat.leb_gt in Hn.
      destruct d' as [ | d']; [lia | ].
      cbn [Pandas.pairwise_sum].
      replace (length l <=? 128)%nat with false
        by (symmetry; apply Nat.leb_gt; exact Hn).
      set (n2 := (length l / 2 - (length l / 2) mod 8)%nat).
      assert (Hn2 : (57 <= n2 /\ n2 <= length l / 2)%nat).
      { unfold n2.
        pose proof (Nat.mod_upper_bound (length l / 2) 8).
        assert (64 <= length l / 2)%nat
          by (apply Nat.div_le_lower_bound; lia).
        lia. }
      assert (Hhalf : (length l / 2 < length l)%nat)
        by (apply Nat.div_lt; lia).
      f_equal; apply IH; rewrite ?length_firstn, ?length_skipn; lia.
Qed.

(** ** Group keys *)

Lemma insert_key_In (k x : Z) (ks : list Z) :
  In x (Pandas.insert_key k ks) <-> x = k \/ In x ks.
Proof.
  induction ks as [ | k' ks IH]; cbn.
  - intuition.
  - destruct (Z.ltb_spec k k') as [Hlt | Hge]; cbn; [intuition | ].
    destruct (Z.eqb_spec k k') as [-> | Hne]; cbn; intuition.
Qed.

Lemma insert_key_sorted (k : Z) (ks : list Z) :
  StronglySorted Z.lt ks -> StronglySorted Z.lt (Pandas.insert_key k ks).
Proof.
  induction ks as [ | k' ks IH]; intros Hs; cbn.
  - repeat constructor.
  - inversion Hs as [ | ? ? Hs' Hall]; subst.
    destruct (Z.ltb_spec k k') as [Hlt | Hge].
    + constructor; [exact Hs | ]. constructor; [exact Hlt | ].
      rewrite Forall_forall in *. intros x Hx. specialize (Hall x Hx). lia.
    + destruct (Z.eqb_spec k k') as [-> | Hne]; [exact Hs | ].
      constructor; [now apply IH | ].
      rewrite Forall_forall in *. intros x Hx.
      apply insert_key_In in Hx. destruct Hx as [-> | Hx]; [lia | auto].
Qed.

Lemma group_keys_In (x : Z) (ks : list Z) :
  In x (Pandas.group_keys ks) <-> In x ks.
Proof.
  induction ks as [ | k ks IH]; cbn; [tauto | ].
  rewrite insert_key_In, IH. intuition.
Qed.

Lemma group_keys_sorted (ks : list Z) :
  StronglySorted Z.lt (Pandas.group_keys ks).
Proof.
  induction ks as [ | k ks IH]; cbn; [constructor | ].
  now apply insert_key_sorted.
Qed.

(** A strictly increasing list is determined by its elements. *)
Lemma sorted_ext (l1 l2 : list Z) :
  StronglySorted Z.lt l1 -> StronglySorted Z.lt l2 ->
  (forall x, In x l1 <-> In x l2) -> l1 = l2.
Proof.
  revert l2. induction l1 as [ | a l1 IH]; intros l2 H1 H2 Hext.
  - destruct l2 as [ | b l2]; [reflexivity | ].
    exfalso. apply (Hext b). now left.
  - destruct l2 as [ | b l2]; [exfalso; apply (Hext a); now left | ].
    inversion H1 as [ | ? ? H1' Hall1]; subst.
    inversion H2 as [ | ? ? H2' Hall2]; subst.
    rewrite Forall_forall in Hall1, Hall2.
    assert (Hab : a = b).
    { assert (Ha : In a (b :: l2)) by (apply Hext; now left).
      assert (Hb : In b (a :: l1)) by (apply Hext; now left).
      destruct Ha as [Ha | Ha]; [now symmetry | ].
      destruct Hb as [Hb | Hb]; [exact Hb | ].
      specialize (Hall1 b Hb). specialize (Hall2 a Ha). lia. }
    subst b. f_equal. apply IH; trivial.
    intros x. split; intros Hx.
    + assert (Hx' : In x (a :: l2)) by (apply Hext; now right).
      destruct Hx' as [<- | Hx']; [ | exact Hx'].
      specialize (Hall1 _ Hx). lia.
    + assert (Hx' : In x (a :: l1)) by (apply Hext; now right).
      destruct Hx' as [<- | Hx']; [ | exact Hx'].
      specialize (Hall2 _ Hx). lia.
Qed.

Lemma filter_sorted (p : Z -> bool) (l : list Z) :
  StronglySorted Z.lt l -> StronglySorted Z.lt (filter p l).
Proof.
  induction 1 as [ | a l Hs IH Hall]; cbn; [constructor | ].
  destruct (p a); [ | exact IH].
  constructor; [exact IH | ].
  rewrite Forall_forall in *. intros x Hx.
  apply filter_In in Hx. now apply Hall.
Qed.

(** The keys of a permuted column are the same list. *)
Lemma group_keys_perm (ks ks' : list Z) :
  Permutation ks ks' -> Pandas.group_keys ks = Pandas.group_keys ks'.
Proof.
  intros Hp. apply sorted_ext; try apply group_keys_sorted.
  intros x. rewrite !group_keys_In.
  split; apply Permutation_in; [exact Hp | now apply Permutation_sym].
Qed.

(** Dropping a key from the column drops it from the keys. *)
Lemma group_keys_filter (p : Z -> bool) (ks : list Z) :
  Pandas.group_keys (filter p ks) = filter p (Pandas.group_keys ks).
Proof.
  apply sorted_ext.
  - apply group_keys_sorted.
  - apply filter_sorted, group_keys_sorted.
  - intros x. rewrite group_keys_In, !filter_In, group_keys_In. tauto.
Qed.

(** ** [idxmax] *)

Section IdxmaxFacts.
Context {F : Type} `{PyFloat F} {laws : FloatLaws F}.








(** With nothing but NaN (or nothing at all) it raises. *)
Lemma idxmax_all_nan {L : Type} (s : Pandas.Series L) :
  (forall e, In e s -> isnan (snd e) = true) ->
  Pandas.idxmax s = inl ValueError.
Proof.
  induction s as [ | [k1 v1] s IH]; intros Hall; cbn; [reflexivity | ].
  assert (Hn1 : isnan v1 = true) by (apply (Hall (k1, v1)); now left).
  rewrite Hn1. apply IH. intros e He. apply Hall. now right.
Qed.


End IdxmaxFacts.

(** ** The welfare load loop *)

Section WelfareLoopFacts.
Context {F : Type} `{PyFloat F} {laws : FloatLaws F}.

Lemma row_locals_exn (r : TerminalRow F) (bdp : Z) (e : exn) :
  Welfare.row_locals r bdp = inl e -> e = ValueError \/ e = OverflowError.
Proof.
  destruct (to_int (employed_float r)) as [e' | ne] eqn:Hx.
  - rewrite (row_locals_raises r bdp _ Hx). intros He. injection He as <-.
    now apply to_int_exn with (x := employed_float r).
  - destruct (row_locals_defined r bdp _ Hx) as (l & Hl & _).
    rewrite Hl. discriminate.
Qed.

Lemma mapM_exn {A B : Type} (f : A -> result B) (P : exn -> Prop)
    (l : list A) (e : exn) :
  (forall a e', f a = inl e' -> P e') -> mapM f l = inl e -> P e.
Proof.
  intros Hf. induction l as [ | a l IH]; cbn; [discriminate | ].
  destruct (f a) as [e' | b] eqn:Hfa; cbn.
  - intros He. injection He as <-. now apply Hf with a.
  - destruct (mapM f l) as [e' | bs]; cbn; [ | discriminate].
    intros He. injection He as <-. now apply IH.
Qed.

Lemma compute_welfare_exn (df : list (TerminalRow F)) (bdp : Z) (e : exn) :
  Welfare.compute_welfare df bdp = inl e ->
  e = ValueError \/ e = OverflowError.
Proof.
  unfold Welfare.compute_welfare.
  apply (@mapM_exn _ _ (fun r => Welfare.welfare_row r bdp)
           (fun e => e = ValueError \/ e = OverflowError)).
  intros r e'. unfold Welfare.welfare_row.
  destruct (Welfare.row_locals r bdp) as [e'' | l] eqn:Hl;
    cbv beta iota delta [bind]; [ | discriminate].
  intros He. injection He as <-. now apply row_locals_exn with r bdp.
Qed.

Lemma column_exn {A : Type} (w : list A) (col : A -> F) (e : exn) :
  Welfare.column w col = inl e -> e = AttributeError.
Proof.
  destruct w; cbn; [ | discriminate]. intros He. now injection He as <-.
Qed.

Lemma welfare_entry_missing (tree : Tree F) (bdp : Z) (regime : RegimeId) :
  terminal tree regime bdp = None ->
  Welfare.welfare_entry tree bdp regime = inl FileNotFoundError.
Proof.
  intros Hfile. unfold Welfare.welfare_entry, Welfare.load_term, read_csv.
  rewrite Hfile. reflexivity.
Qed.

(** Once the file is read, what can still go wrong is a row whose
    employed count cannot be computed, or a file without rows. *)
Lemma welfare_entry_exn (tree : Tree F) (bdp : Z) (regime : RegimeId)
    (df : list (TerminalRow F)) (e : exn) :
  terminal tree regime bdp = Some df ->
  Welfare.welfare_entry tree bdp regime = inl e ->
  e = ValueError \/ e = OverflowError \/ e = AttributeError.
Proof.
  intros Hfile. unfold Welfare.welfare_entry, Welfare.load_term, read_csv.
  rewrite Hfile. cbv beta iota delta [bind ret].
  destruct (Welfare.compute_welfare df bdp) as [e' | w] eqn:Hw.
  - intros He. injection He as <-.
    destruct (compute_welfare_exn _ _ _ Hw); auto.
  - destruct w as [ | w0 w]; cbn.
    + intros He. injection He as <-. auto.
    + discriminate.
Qed.

Lemma welfare_entry_fields (tree : Tree F) (bdp : Z) (regime : RegimeId)
    (a : Welfare.Aggregate) :
  Welfare.welfare_entry tree bdp regime = inr a ->
  Welfare.BDP a = bdp /\ Welfare.Regime a = regime /\
  terminal tree regime bdp <> None.
Proof.
  unfold Welfare.welfare_entry, Welfare.load_term, read_csv.
  destruct (terminal tree regime bdp) as [df | ]; [ | discriminate].
  cbv beta iota delta [bind ret].
  destruct (Welfare.compute_welfare df bdp) as [e' | w]; [discriminate | ].
  destruct w as [ | w0 w]; cbn; [discriminate | ].
  intros Ha. injection Ha as <-. cbn. repeat split. discriminate.
Qed.

(** Two trees that agree on a file give the same entry for it. *)
Lemma welfare_entry_ext (tree tree' : Tree F) (bdp : Z) (regime : RegimeId) :
  terminal tree regime bdp = terminal tree' regime bdp ->
  Welfare.welfare_entry tree bdp regime
  = Welfare.welfare_entry tree' bdp regime.
Proof.
  intros Hfile. unfold Welfare.welfare_entry, Welfare.load_term.
  now rewrite Hfile.
Qed.

(** What one [(bdp, regime)] contributes to the list. *)
Definition level_entry (tree : Tree F) (bdp : Z) (regime : RegimeId)
    : result (list Welfare.Aggregate) :=
  match terminal tree regime bdp with
  | None => ret []
  | Some _ => (a <- Welfare.welfare_entry tree bdp regime ;; ret [a])%py
  end.

Fixpoint entries (tree : Tree F) (levels : list Z)
    : result (list Welfare.Aggregate) :=
  match levels with
  | [] => ret []
  | bdp :: levels' =>
      (p <- level_entry tree bdp pln ;;
       e <- level_entry tree bdp eur ;;
       rest <- entries tree levels' ;;
       ret (p ++ e ++ rest))%py
  end.

Lemma welfare_step_eq (tree : Tree F) (welfare : list Welfare.Aggregate)
    (bdp : Z) (regime : RegimeId) :
  Welfare.welfare_step tree welfare bdp regime
  = (l <- level_entry tree bdp regime ;; ret (welfare ++ l))%py.
Proof.
  unfold Welfare.welfare_step, level_entry.
  destruct (terminal tree regime bdp) as [df | ] eqn:Hfile.
  - destruct (Welfare.welfare_entry tree bdp regime) as [e | a] eqn:Ha;
      cbn; [ | reflexivity].
    destruct (welfare_entry_exn _ _ _ _ _ Hfile Ha) as [-> | [-> | ->]];
      reflexivity.
  - rewrite (welfare_entry_missing _ _ _ Hfile). cbn.
    now rewrite app_nil_r.
Qed.

Lemma welfare_loop_eq (tree : Tree F) (levels : list Z) :
  forall welfare,
  Welfare.welfare_loop tree levels welfare
  = (l <- entries tree levels ;; ret (welfare ++ l))%py.
Proof.
  induction levels as [ | bdp levels IH]; intros welfare; cbn.
  - now rewrite app_nil_r.
  - rewrite !welfare_step_eq.
    destruct (level_entry tree bdp pln) as [e | p]; cbn; [reflexivity | ].
    rewrite welfare_step_eq.
    destruct (level_entry tree bdp eur) as [e | q]; cbn; [reflexivity | ].
    rewrite IH.
    destruct (entries tree levels) as [e | rest]; cbn; [reflexivity | ].
    now rewrite <- !app_assoc.
Qed.

Lemma welfare_list_eq (tree : Tree F) :
  Welfare.welfare_list tree = entries tree BDP_LEVELS.
Proof.
  unfold Welfare.welfare_list. rewrite welfare_loop_eq.
  destruct (entries tree BDP_LEVELS); reflexivity.
Qed.

Lemma level_entry_fields (tree : Tree F) (bdp : Z) (regime : RegimeId)
    (l : list Welfare.Aggregate) (a : Welfare.Aggregate) :
  level_entry tree bdp regime = inr l -> In a l ->
  Welfare.welfare_entry tree bdp regime = inr a.
Proof.
  unfold level_entry. destruct (terminal tree regime bdp) as [df | ].
  - destruct (Welfare.welfare_entry tree bdp regime) as [e | a'];
      cbn; [discriminate | ].
    intros Hl. injection Hl as <-. intros [<- | []]. reflexivity.
  - intros Hl. injection Hl as <-. intros [].
Qed.


End WelfareLoopFacts.

(** ** The optimal level *)

Section OptimalFacts.
Context {F : Type} `{PyFloat F} {laws : FloatLaws F}.







End OptimalFacts.


Lemma RegimeId_eqb_eq (a b : RegimeId) : RegimeId_eqb a b = true <-> a = b.
Proof. destruct a, b; cbn; split; congruence. Qed.






(** A binary64 terminal row with the given wage. *)
Definition row_with_wage (wage : Z) : TerminalRow spec_float :=
  {| TotalAdoption := decimal 5 1;
     Inflation := decimal 2 2;
     Unemployment := decimal 10 2;
     ExRate := of_int 4;
     MarketWage := of_int wage;
     RefRate := decimal 5 2;
     NPL := decimal 3 2;
     PriceLevel := of_int 1;
     EffectiveBDP := None |}.

(** A tree with the PLN terminal files of the levels 0 and 250, two seeds
    each. *)
Definition tree_two_levels : Tree spec_float :=
  {| terminal := fun regime bdp =>
       match regime with
       | pln =>
           if bdp =? 0 then Some [row_with_wage 3000; row_with_wage 3100]
           else if bdp =? 250
                then Some [row_with_wage 2900; row_with_wage 3300]
                else None
       | eur => None
       end;
     timeseries := fun _ _ => None |}.


(** ** A missing file *)

Section MissingFile.
Context {F : Type} `{PyFloat F} {laws : FloatLaws F}.

(** The tree without the terminal file of [(regime, bdp)]. *)
Definition without (tree : Tree F) (regime : RegimeId) (bdp : Z) : Tree F :=
  {| terminal := fun regime' bdp' =>
       if RegimeId_eqb regime' regime && (bdp' =? bdp) then None
       else terminal tree regime' bdp';
     timeseries := timeseries tree |}.

(** The entries of the welfare table other than that of [(regime, bdp)]. *)
Definition other_entry (regime : RegimeId) (bdp : Z)
    (a : @Welfare.Aggregate F) : bool :=
  negb (RegimeId_eqb (Welfare.Regime a) regime && (Welfare.BDP a =? bdp)).

(** The rows of the sweep frame at levels other than [bdp]. *)
Definition other_level (bdp : Z) (r : @Sweep.SweepRow F) : bool :=
  negb (Sweep.BDP r =? bdp).

Lemma level_entry_without (tree : Tree F) (regime regime' : RegimeId)
    (bdp bdp' : Z) (l : list Welfare.Aggregate) :
  level_entry tree bdp' regime' = inr l ->
  level_entry (without tree regime bdp) bdp' regime'
  = inr (filter (other_entry regime bdp) l).
Proof.
  intros Hl.
  assert (Hall : forall a, In a l ->
                 Welfare.BDP a = bdp' /\ Welfare.Regime a = regime').
  { intros a Ha. pose proof (level_entry_fields _ _ _ _ _ Hl Ha) as He.
    destruct (welfare_entry_fields _ _ _ _ He) as (Hb & Hr & _). auto. }
  unfold level_entry in *. cbn [terminal without].
  destruct (RegimeId_eqb regime' regime && (bdp' =? bdp)) eqn:Hsame.
  - unfold ret. f_equal. symmetry.
    apply andb_prop in Hsame. destruct Hsame as [Hr Hb].
    apply RegimeId_eqb_eq in Hr. apply Z.eqb_eq in Hb. subst.
    clear Hl. induction l as [ | a l IH]; [reflexivity | ]. cbn.
    destruct (Hall a (or_introl eq_refl)) as [Hb Hr].
    unfold other_entry at 1. rewrite Hb, Hr, Z.eqb_refl.
    replace (RegimeId_eqb regime regime) with true
      by (symmetry; now apply RegimeId_eqb_eq).
    cbn. apply IH. intros a' Ha'. apply Hall. now right.
  - rewrite (welfare_entry_ext (without tree regime bdp) tree bdp' regime')
      by (cbn; now rewrite Hsame).
    rewrite Hl. f_equal. symmetry.
    clear Hl. induction l as [ | a l IH]; [reflexivity | ]. cbn.
    destruct (Hall a (or_introl eq_refl)) as [Hb Hr].
    unfold other_entry at 1. rewrite Hb, Hr, Hsame. cbn.
    f_equal. apply IH. intros a' Ha'. apply Hall. now right.
Qed.

Lemma entries_without (tree : Tree F) (regime : RegimeId) (bdp : Z)
    (levels : list Z) :
  forall l,
  entries tree levels = inr l ->
  entries (without tree regime bdp) levels
  = inr (filter (other_entry regime bdp) l).
Proof.
  induction levels as [ | bdp' levels IH]; intros l; cbn.
  - intros Hl. now injection Hl as <-.
  - destruct (level_entry tree bdp' pln) as [e | p] eqn:Hp;
      cbn; [discriminate | ].
    destruct (level_entry tree bdp' eur) as [e | q] eqn:Hq;
      cbn; [discriminate | ].
    destruct (entries tree levels) as [e | rest];
      cbn; [discriminate | ].
    intros Hl. injection Hl as <-.
    rewrite (level_entry_without _ regime _ bdp _ _ Hp).
    rewrite (level_entry_without _ regime _ bdp _ _ Hq).
    rewrite (IH rest eq_refl). cbn.
    now rewrite !filter_app.
Qed.

Lemma level_rows_BDP (tree : Tree F) (regime : RegimeId) (bdp : Z)
    (r : Sweep.SweepRow) :
  In r (level_rows tree regime bdp) -> Sweep.BDP r = bdp.
Proof.
  unfold level_rows. destruct (terminal tree regime bdp) as [df | ];
    [ | intros []].
  intros Hin. apply in_map_iff in Hin. now destruct Hin as (x & <- & _).
Qed.

Lemma filter_all {A : Type} (p : A -> bool) (l : list A) :
  (forall x, In x l -> p x = true) -> filter p l = l.
Proof.
  induction l as [ | a l IH]; cbn; intros Hall; [reflexivity | ].
  rewrite Hall by now left. f_equal. apply IH. intros x Hx. apply Hall.
  now right.
Qed.

Lemma filter_none {A : Type} (p : A -> bool) (l : list A) :
  (forall x, In x l -> p x = false) -> filter p l = [].
Proof.
  induction l as [ | a l IH]; cbn; intros Hall; [reflexivity | ].
  rewrite Hall by now left. apply IH. intros x Hx. apply Hall. now right.
Qed.

Lemma level_rows_without (tree : Tree F) (regime : RegimeId) (bdp bdp' : Z) :
  level_rows (without tree regime bdp) regime bdp'
  = filter (other_level bdp) (level_rows tree regime bdp').
Proof.
  destruct (Z.eqb_spec bdp' bdp) as [-> | Hne].
  - rewrite filter_none.
    + unfold level_rows. cbn [terminal without]. rewrite Z.eqb_refl.
      replace (RegimeId_eqb regime regime) with true
        by (symmetry; now apply RegimeId_eqb_eq).
      reflexivity.
    + intros r Hr. unfold other_level.
      rewrite (level_rows_BDP _ _ _ _ Hr), Z.eqb_refl. reflexivity.
  - rewrite filter_all.
    + unfold level_rows. cbn [terminal without].
      replace (bdp' =? bdp) with false by (symmetry; now apply Z.eqb_neq).
      now rewrite andb_false_r.
    + intros r Hr. unfold other_level.
      rewrite (level_rows_BDP _ _ _ _ Hr).
      apply negb_true_iff. now apply Z.eqb_neq.
Qed.

Lemma flat_map_filter {A B : Type} (f : A -> list B) (p : B -> bool)
    (l : list A) :
  filter p (flat_map f l) = flat_map (fun a => filter p (f a)) l.
Proof.
  induction l as [ | a l IH]; cbn; [reflexivity | ].
  now rewrite filter_app, IH.
Qed.

Lemma load_sweep_without (tree : Tree F) (regime : RegimeId) (bdp : Z) :
  snd (Sweep.load_sweep (without tree regime bdp) regime)
  = filter (other_level bdp) (snd (Sweep.load_sweep tree regime)).
Proof.
  rewrite !load_sweep_eq. cbn [snd]. rewrite flat_map_filter.
  apply flat_map_ext. intros bdp'. apply level_rows_without.
Qed.

Lemma load_sweep_without_other (tree : Tree F) (regime other : RegimeId)
    (bdp : Z) :
  other <> regime ->
  Sweep.load_sweep (without tree regime bdp) other
  = Sweep.load_sweep tree other.
Proof.
  intros Hne. rewrite !load_sweep_eq.
  assert (Hfile : forall bdp', terminal (without tree regime bdp) other bdp'
                               = terminal tree other bdp').
  { intros bdp'. cbn.
    replace (RegimeId_eqb other regime) with false; [reflexivity | ].
    symmetry. destruct (RegimeId_eqb other regime) eqn:E; [ | reflexivity].
    apply RegimeId_eqb_eq in E. contradiction. }
  f_equal; apply flat_map_ext; intros bdp';
    unfold level_notices, level_rows; now rewrite Hfile.
Qed.

Lemma load_sweep_without_notice (tree : Tree F) (regime : RegimeId)
    (bdp : Z) :
  In bdp BDP_LEVELS ->
  In (Sweep.MISSING regime bdp)
     (fst (Sweep.load_sweep (without tree regime bdp) regime)).
Proof.
  intros Hin. rewrite load_sweep_eq. cbn [fst].
  apply in_flat_map. exists bdp. split; [exact Hin | ].
  unfold level_notices. cbn [terminal without]. rewrite Z.eqb_refl.
  replace (RegimeId_eqb regime regime) with true
    by (symmetry; now apply RegimeId_eqb_eq).
  now left.
Qed.

(** Grouping the frame without the rows of a key gives the groups of the
    other keys, unchanged. *)
Lemma groupby_agg_filter {A : Type} (key : A -> Z) (col : A -> F)
    (f : list F -> F) (b : Z) (df : list A) :
  Pandas.groupby_agg key col f (filter (fun a => negb (key a =? b)) df)
  = filter (fun kv => negb (fst kv =? b)) (Pandas.groupby_agg key col f df).
Proof.
  unfold Pandas.groupby_agg, Pandas.groupby.
  rewrite !map_map.
  assert (Hkeys : map key (filter (fun a => negb (key a =? b)) df)
                  = filter (fun k => negb (k =? b)) (map key df)).
  { induction df as [ | a df IH]; cbn; [reflexivity | ].
    destruct (key a =? b); cbn; now rewrite IH. }
  rewrite Hkeys, group_keys_filter. cbn [fst snd]. clear Hkeys.
  assert (Hgroup : forall k, k <> b ->
            filter (fun a => key a =? k)
                   (filter (fun a => negb (key a =? b)) df)
            = filter (fun a => key a =? k) df).
  { intros k Hne. induction df as [ | a df IH]; cbn; [reflexivity | ].
    destruct (Z.eqb_spec (key a) b) as [Hb | Hb]; cbn.
    - destruct (Z.eqb_spec (key a) k) as [Hk | Hk]; [congruence | exact IH].
    - destruct (key a =? k); now rewrite IH. }
  induction (Pandas.group_keys (map key df)) as [ | k ks IH];
    cbn [filter map]; [reflexivity | ].
  cbn [fst]. destruct (Z.eqb_spec k b) as [-> | Hne]; cbn [negb];
    [exact IH | ].
  cbn [map]. rewrite IH, (Hgroup k Hne). reflexivity.
Qed.

End MissingFile.

(** A missing terminal file is not fatal at the load: the welfare
    loop leaves its list as it is (nothing is printed) and the sweep
    loader prints the MISSING notice and goes on with the next level.
    Compared with a run on a tree that has the file and on which the
    welfare loop returns, the run without the file returns too, and its
    table is the same table without the entry of that regime and level.
    The sweep frame of the regime loses exactly the rows of that level,
    the frame of the other regime is the same, the notice is printed when
    the level is one of BDP_LEVELS, and every per-level aggregate of the
    frame is the same series without that level. *)
Theorem missing_file_table :
  forall (F : Type) (PF : PyFloat F) (laws : FloatLaws F) (tree : Tree F)
         (regime : RegimeId) (bdp : Z),
  (forall welfare : list (@Welfare.Aggregate F),
     terminal tree regime bdp = None ->
     Welfare.welfare_step tree welfare bdp regime = inr welfare) /\
  (forall levels out rows,
     terminal tree regime bdp = None ->
     Sweep.load_loop tree regime (bdp :: levels) out rows
     = Sweep.load_loop tree regime levels
         (out ++ [Sweep.MISSING regime bdp]) rows) /\
  (forall welfare : list (@Welfare.Aggregate F),
     Welfare.welfare_list tree = inr welfare ->
     Welfare.welfare_list (without tree regime bdp)
     = inr (filter (other_entry regime bdp) welfare)) /\
  snd (Sweep.load_sweep (without tree regime bdp) regime)
  = filter (other_level bdp) (snd (Sweep.load_sweep tree regime)) /\
  (forall other, other <> regime ->
     Sweep.load_sweep (without tree regime bdp) other
     = Sweep.load_sweep tree other) /\
  (In bdp BDP_LEVELS ->
   In (Sweep.MISSING regime bdp)
      (fst (Sweep.load_sweep (without tree regime bdp) regime))) /\
  (forall (col : Sweep.SweepRow -> F) (f : list F -> F),
     Pandas.groupby_agg Sweep.BDP col f
       (snd (Sweep.load_sweep (without tree regime bdp) regime))
     = filter (fun kv => negb (fst kv =? bdp))
         (Pandas.groupby_agg Sweep.BDP col f
            (snd (Sweep.load_sweep tree regime)))).
Proof.
  intros F PF laws tree regime bdp.
  split; [ | split; [ | split; [ | split; [ | split; [ | split]]]]].
  - intros welfare Hfile. unfold Welfare.welfare_step.
    now rewrite (welfare_entry_missing _ _ _ Hfile).
  - intros levels out rows Hfile. cbn. now rewrite Hfile.
  - intros welfare Hw. rewrite welfare_list_eq in *.
    now apply entries_without.
  - apply load_sweep_without.
  - intros other Hne. now apply load_sweep_without_other.
  - apply load_sweep_without_notice.
  - intros col f. rewrite load_sweep_without.
    apply (groupby_agg_filter Sweep.BDP col f bdp).
Qed.

(** On the two-level tree, without the PLN file of level 250: the step
    at that level keeps the list, and the table is the one of the full
    tree without the entry of PLN at 250. *)
Lemma missing_file_table_witness :
  Welfare.welfare_step (without tree_two_levels pln 250) [] 250 pln
  = inr [] /\
  exists welfare : list (@Welfare.Aggregate spec_float),
    Welfare.welfare_list tree_two_levels = inr welfare /\
    length welfare = 2%nat /\
    Welfare.welfare_list (without tree_two_levels pln 250)
    = inr (filter (other_entry pln 250) welfare) /\
    length (filter (other_entry pln 250) welfare) = 1%nat.
Proof.
  pose proof (missing_file_table spec_float _ _ tree_two_levels pln 250)
    as (_ & _ & Hw & _).
  split.
  - apply (proj1 (missing_file_table spec_float _ _
                    (without tree_two_levels pln 250) pln 250)).
    reflexivity.
  - destruct (Welfare.welfare_list tree_two_levels) as [e | welfare] eqn:Hl;
      [vm_compute in Hl; discriminate | ].
    exists welfare. split; [reflexivity | ].
    specialize (Hw welfare eq_refl).
    split; [ | split; [exact Hw | ]];
      vm_compute in Hl; injection Hl as <-; reflexivity.
Defined.

(** PLN files at the levels 0 and 250 and one EUR file, at level 250;
    two seeds each. *)
Definition tree_last_file : Tree spec_float :=
  {| terminal := fun regime bdp =>
       match regime with
       | pln =>
           if bdp =? 0 then Some [row_with_wage 3000; row_with_wage 3100]
           else if bdp =? 250
                then Some [row_with_wage 2900; row_with_wage 3300]
                else None
       | eur =>
           if bdp =? 250
           then Some [row_with_wage 2950; row_with_wage 3250]
           else None
       end;
     timeseries := fun _ _ => None |}.

(** C7: a missing file can be fatal.  On a tree where EUR has the file
    of level 250 only, the sweep script runs to its end; without that
    file the loader prints the notice and returns an EUR frame built from
    no rows, and the script then stops with KeyError in the summary loop,
    at [data_eur[data_eur['BDP'] == bdp]].  The welfare script stops the
    same way, at [wdf['Regime']], when the tree loses its only file. *)
Theorem C7_last_file_abort :
  (exists report : Sweep.Report,
     Sweep.script tree_last_file = inr report) /\
  In (Sweep.MISSING eur 250)
     (fst (Sweep.load_sweep (without tree_last_file eur 250) eur)) /\
  snd (Sweep.load_sweep (without tree_last_file eur 250) eur) = [] /\
  Sweep.summary_line
    (snd (Sweep.load_sweep (without tree_last_file eur 250) pln))
    (snd (Sweep.load_sweep (without tree_last_file eur 250) eur)) 0
  = inl KeyError /\
  Sweep.script (without tree_last_file eur 250) = inl KeyError /\
  (exists report : Welfare.Report,
     Welfare.script (tree_one_file [row_with_wage 3000; row_with_wage 3100])
     = inr report) /\
  Welfare.welfare_list
    (without (tree_one_file [row_with_wage 3000; row_with_wage 3100])
             pln 2000)
  = inr [] /\
  Welfare.script
    (without (tree_one_file [row_with_wage 3000; row_with_wage 3100])
             pln 2000)
  = inl KeyError.
Proof.
  split; [eexists; vm_compute; reflexivity | ].
  split; [vm_compute; tauto | ].
  split; [vm_compute; reflexivity | ].
  split; [vm_compute; reflexivity | ].
  split; [vm_compute; reflexivity | ].
  split; [eexists; vm_compute; reflexivity | ].
  split; vm_compute; reflexivity.
Qed.

(** ** The critical point *)

Section CriticalPoint.
Context {F : Type} `{PyFloat F} {laws : FloatLaws F}.








End CriticalPoint.



(** A binary64 terminal row with the given adoption, in per mille. *)
Definition row_with_adoption (adoption : Z) : TerminalRow spec_float :=
  {| TotalAdoption := decimal adoption 3;
     Inflation := decimal 2 2;
     Unemployment := decimal 10 2;
     ExRate := of_int 4;
     MarketWage := of_int 3000;
     RefRate := decimal 5 2;
     NPL := decimal 3 2;
     PriceLevel := of_int 1;
     EffectiveBDP := None |}.



(** ** Row order *)

Section RowOrder.
Context {F : Type} `{PyFloat F}.

Lemma filter_perm {A : Type} (p : A -> bool) (l l' : list A) :
  Permutation l l' -> Permutation (filter p l) (filter p l').
Proof.
  induction 1 as [ | x l l' _ IH | x y l | l l' l'' _ IH1 _ IH2]; cbn.
  - constructor.
  - destruct (p x); [now constructor | exact IH].
  - destruct (p x), (p y); try apply Permutation_refl.
    apply perm_swap.
  - now apply Permutation_trans with (filter p l').
Qed.

Lemma count_perm (l l' : list F) :
  Permutation l l' -> Pandas.count l = Pandas.count l'.
Proof.
  intros Hp. unfold Pandas.count, Pandas.dropna.
  now rewrite (Permutation_length (filter_perm _ _ _ Hp)).
Qed.

(** A reduction that ignores the order of a column gives the same
    per-key series on a frame and on any reordering of its rows. *)
Lemma groupby_agg_perm {A : Type} (key : A -> Z) (col : A -> F)
    (f : list F -> F) (df df' : list A) :
  (forall l l', Permutation l l' -> f l = f l') ->
  Permutation df df' ->
  Pandas.groupby_agg key col f df = Pandas.groupby_agg key col f df'.
Proof.
  intros Hf Hp. unfold Pandas.groupby_agg, Pandas.groupby.
  rewrite !map_map. cbn [fst snd].
  rewrite (group_keys_perm (map key df) (map key df'))
    by now apply Permutation_map.
  apply map_ext. intros k. f_equal.
  apply Hf. apply Permutation_map. now apply filter_perm.
Qed.

Lemma mapM_perm {A B : Type} (f : A -> result B) (e0 : exn) (l l' : list A) :
  (forall a e, f a = inl e -> e = e0) ->
  Permutation l l' ->
  (mapM f l = inl e0 /\ mapM f l' = inl e0) \/
  (exists w w', mapM f l = inr w /\ mapM f l' = inr w' /\ Permutation w w').
Proof.
  intros Hf.
  induction 1 as [ | x l l' _ IH | x y l | l l' l'' _ IH1 _ IH2]; cbn.
  - right. exists [], []. repeat split. constructor.
  - destruct (f x) as [e | b] eqn:Hx; cbn.
    + left. rewrite (Hf _ _ Hx). auto.
    + destruct IH as [[-> ->] | (w & w' & -> & -> & Hw)]; cbn; [now left | ].
      right. exists (b :: w), (b :: w'). repeat split. now constructor.
  - destruct (f x) as [e | b] eqn:Hx; destruct (f y) as [e' | b'] eqn:Hy;
      cbn.
    + rewrite (Hf _ _ Hx), (Hf _ _ Hy). left. split; reflexivity.
    + rewrite (Hf _ _ Hx). left. split; reflexivity.
    + rewrite (Hf _ _ Hy). left. split; reflexivity.
    + destruct (mapM f l) as [e | w] eqn:Hl; cbn.
      * left. assert (He : e = e0); [ | now rewrite He].
        revert Hl. apply (mapM_exn f (fun e => e = e0)). exact Hf.
      * right. exists (b' :: b :: w), (b :: b' :: w). repeat split.
        apply perm_swap.
  - destruct IH1 as [[-> H1] | (w & w' & -> & H1 & Hw)];
      destruct IH2 as [[H2 ->] | (v & v' & H2 & -> & Hv)];
      try congruence; [now left | ].
    right. exists w, v'. repeat split.
    rewrite H1 in H2. injection H2 as <-.
    now apply Permutation_trans with w'.
Qed.

End RowOrder.

(** *** Sums of real numbers *)

Fixpoint Rsum (rs : list R) : R :=
  match rs with
  | [] => 0%R
  | a :: rs' => (a + Rsum rs')%R
  end.

Lemma Rsum_app (rs rs' : list R) :
  Rsum (rs ++ rs') = (Rsum rs + Rsum rs')%R.
Proof. induction rs as [ | a rs IH]; cbn; [lra | rewrite IH; lra]. Qed.

Lemma Rsum_perm (rs rs' : list R) :
  Permutation rs rs' -> Rsum rs = Rsum rs'.
Proof.
  induction 1 as [ | x l l' _ IH | x y l | l l' l'' _ IH1 _ IH2]; cbn;
    lra.
Qed.

Lemma list_ind8 {A : Type} (P : list A -> Prop) :
  (forall l, (length l < 8)%nat -> P l) ->
  (forall a0 a1 a2 a3 a4 a5 a6 a7 l,
     P l -> P (a0 :: a1 :: a2 :: a3 :: a4 :: a5 :: a6 :: a7 :: l)) ->
  forall l, P l.
Proof.
  intros Hshort Hstep l.
  remember (length l) as n eqn:Hn. revert l Hn.
  induction n as [n IH] using lt_wf_ind. intros l Hn.
  destruct l as [ | a0 [ | a1 [ | a2 [ | a3 [ | a4 [ | a5 [ | a6 [ | a7 l]]]]]]]];
    try (apply Hshort; cbn; lia).
  apply Hstep. apply (IH (length l)); [subst; cbn; lia | reflexivity].
Qed.

(** *** numpy's sum in exact arithmetic: the sum *)

Lemma exact_sum_loop (rs : list R) :
  forall a : R,
  Pandas.sum_loop (Exact.Real a) (map Exact.Real rs)
  = Exact.Real (a + Rsum rs).
Proof.
  unfold Pandas.sum_loop.
  induction rs as [ | r rs IH]; intros a; cbn.
  - f_equal. lra.
  - rewrite IH. f_equal. lra.
Qed.

Record RLanes : Type := {
  q0 : R; q1 : R; q2 : R; q3 : R; q4 : R; q5 : R; q6 : R; q7 : R
}.

Definition to_lanes (q : RLanes) : @Pandas.Lanes Exact.xreal :=
  {| Pandas.r0 := Exact.Real (q0 q); Pandas.r1 := Exact.Real (q1 q);
     Pandas.r2 := Exact.Real (q2 q); Pandas.r3 := Exact.Real (q3 q);
     Pandas.r4 := Exact.Real (q4 q); Pandas.r5 := Exact.Real (q5 q);
     Pandas.r6 := Exact.Real (q6 q); Pandas.r7 := Exact.Real (q7 q) |}.

Definition RLanes_total (q : RLanes) : R :=
  (q0 q + q1 q + q2 q + q3 q + q4 q + q5 q + q6 q + q7 q)%R.

Lemma exact_lanes_loop (rs : list R) :
  forall q : RLanes,
  exists (q' : RLanes) (rest : list R),
    Pandas.lanes_loop (to_lanes q) (map Exact.Real rs)
    = (to_lanes q', map Exact.Real rest) /\
    (RLanes_total q' + Rsum rest = RLanes_total q + Rsum rs)%R.
Proof.
  induction rs as [rs Hlen | a0 a1 a2 a3 a4 a5 a6 a7 rs IH] using list_ind8;
    intros q.
  - exists q, rs. split; [ | reflexivity].
    destruct rs as [ | b0 [ | b1 [ | b2 [ | b3 [ | b4 [ | b5 [ | b6 [ | b7 rs]]]]]]]];
      try reflexivity.
    cbn in Hlen. lia.
  - destruct (IH {| q0 := q0 q + a0; q1 := q1 q + a1; q2 := q2 q + a2;
                    q3 := q3 q + a3; q4 := q4 q + a4; q5 := q5 q + a5;
                    q6 := q6 q + a6; q7 := q7 q + a7 |}%R)
      as (q' & rest & Hloop & Hsum).
    exists q', rest. split; [exact Hloop | ].
    rewrite Hsum. unfold RLanes_total. cbn. lra.
Qed.

Lemma exact_sum_block (rs : list R) :
  Pandas.sum_block (map Exact.Real rs) = Exact.Real (Rsum rs).
Proof.
  destruct rs as [ | a0 [ | a1 [ | a2 [ | a3 [ | a4 [ | a5 [ | a6 [ | a7 rs]]]]]]]].
  1-8: match goal with
       | |- Pandas.sum_block (map _ ?l) = _ =>
           etransitivity;
           [exact (exact_sum_loop l 0%R) | cbn; f_equal; lra]
       end.
  destruct (exact_lanes_loop rs
              {| q0 := a0; q1 := a1; q2 := a2; q3 := a3;
                 q4 := a4; q5 := a5; q6 := a6; q7 := a7 |})
    as (q' & rest & Hloop & Hsum).
  unfold Pandas.sum_block. cbn [map].
  change {| Pandas.r0 := Exact.Real a0; Pandas.r1 := Exact.Real a1;
            Pandas.r2 := Exact.Real a2; Pandas.r3 := Exact.Real a3;
            Pandas.r4 := Exact.Real a4; Pandas.r5 := Exact.Real a5;
            Pandas.r6 := Exact.Real a6; Pandas.r7 := Exact.Real a7 |}
    with (to_lanes {| q0 := a0; q1 := a1; q2 := a2; q3 := a3;
                      q4 := a4; q5 := a5; q6 := a6; q7 := a7 |}).
  rewrite Hloop.
  change (Pandas.lanes_total (to_lanes q'))
    with (Exact.Real (q0 q' + q1 q' + (q2 q' + q3 q')
                      + (q4 q' + q5 q' + (q6 q' + q7 q')))).
  rewrite exact_sum_loop. f_equal.
  unfold RLanes_total in Hsum. cbn in Hsum |- *. lra.
Qed.

Lemma exact_pairwise_sum (depth : nat) :
  forall rs : list R,
  Pandas.pairwise_sum depth (map Exact.Real rs) = Exact.Real (Rsum rs).
Proof.
  induction depth as [ | depth IH]; intros rs.
  - cbn [Pandas.pairwise_sum].
    destruct (length (map Exact.Real rs) <=? 128)%nat;
      apply exact_sum_block.
  - cbn [Pandas.pairwise_sum].
    destruct (length (map Exact.Real rs) <=? 128)%nat;
      [apply exact_sum_block | ].
    rewrite firstn_map, skipn_map, !IH. cbn.
    f_equal. rewrite <- Rsum_app. now rewrite firstn_skipn.
Qed.

Lemma exact_sum (rs : list R) :
  Pandas.sum (map Exact.Real rs) = Exact.Real (Rsum rs).
Proof.
  unfold Pandas.sum. rewrite exact_pairwise_sum. cbn. f_equal. lra.
Qed.

(** The numbers of a column, with 0 for the missing ones. *)
Definition vals (l : list Exact.xreal) : list R :=
  map (fun x => match x with Exact.Real a => a | Exact.NaN => 0%R end) l.

Lemma exact_fillna (l : list Exact.xreal) :
  Pandas.fillna (of_int 0) l = map Exact.Real (vals l).
Proof.
  unfold Pandas.fillna, vals. rewrite map_map. apply map_ext.
  intros [ | a]; reflexivity.
Qed.

Lemma exact_sum_fillna_perm (l l' : list Exact.xreal) :
  Permutation l l' ->
  Pandas.sum (Pandas.fillna (of_int 0) l)
  = Pandas.sum (Pandas.fillna (of_int 0) l').
Proof.
  intros Hp. rewrite !exact_fillna, !exact_sum. f_equal.
  apply Rsum_perm. unfold vals. now apply Permutation_map.
Qed.

Lemma mean_perm (l l' : list Exact.xreal) :
  Permutation l l' -> Pandas.mean l = Pandas.mean l'.
Proof.
  intros Hp. unfold Pandas.mean.
  now rewrite (count_perm _ _ Hp), (exact_sum_fillna_perm _ _ Hp).
Qed.

(** The squared deviations of a column from [a], with 0 for the missing
    entries. *)
Definition sqdev (a : R) (l : list Exact.xreal) : list R :=
  map (fun x => match x with
                | Exact.Real v => ((a - v) * (a - v))%R
                | Exact.NaN => 0%R
                end) l.

Lemma std_perm (l l' : list Exact.xreal) :
  Permutation l l' -> Pandas.std l = Pandas.std l'.
Proof.
  intros Hp. unfold Pandas.std.
  rewrite (count_perm _ _ Hp), (exact_sum_fillna_perm _ _ Hp).
  destruct (Z.leb_spec (Pandas.count l') 1) as [Hle | Hgt]; [reflexivity | ].
  cbv zeta. f_equal. f_equal.
  rewrite exact_fillna, exact_sum.
  assert (Hdiv : (Exact.Real (Rsum (vals l')) / of_int (Pandas.count l'))%py
                 = Exact.Real (Rsum (vals l') / IZR (Pandas.count l'))).
  { cbn. destruct (Req_dec_T (IZR (Pandas.count l')) 0) as [Hz | Hz];
      [ | reflexivity].
    apply eq_IZR_R0 in Hz. lia. }
  rewrite Hdiv.
  set (a := (Rsum (vals l') / IZR (Pandas.count l'))%R).
  assert (Hsq : forall m : list Exact.xreal,
            map (fun x : Exact.xreal =>
                   if isnan x then of_int 0
                   else ((Exact.Real a - x) * (Exact.Real a - x))%py) m
            = map Exact.Real (sqdev a m)).
  { intros m. unfold sqdev. rewrite map_map. apply map_ext.
    intros [ | v]; reflexivity. }
  rewrite !Hsq, !exact_sum. f_equal.
  apply Rsum_perm. unfold sqdev. now apply Permutation_map.
Qed.

(** *** The groupby kernels in exact arithmetic *)

Lemma count_cons (x : Exact.xreal) (l : list Exact.xreal) :
  Pandas.count (x :: l)
  = (if isnan x then 0 else 1) + Pandas.count l.
Proof.
  unfold Pandas.count, Pandas.dropna. cbn [filter].
  destruct (isnan x); cbn [negb length]; lia.
Qed.

Lemma count_app (l l' : list Exact.xreal) :
  Pandas.count (l ++ l') = Pandas.count l + Pandas.count l'.
Proof.
  unfold Pandas.count, Pandas.dropna.
  now rewrite filter_app, length_app, Nat2Z.inj_add.
Qed.

Lemma count_nonneg (l : list Exact.xreal) : 0 <= Pandas.count l.
Proof. unfold Pandas.count. lia. Qed.

(** In exact arithmetic the compensation stays 0 and the running sum is
    the sum. *)
Lemma exact_mean_fold (l : list Exact.xreal) :
  forall (n : Z) (s : R),
  fold_left Pandas.mean_step l
    {| Pandas.mean_nobs := n; Pandas.sumx := Exact.Real s;
       Pandas.compensation := Exact.Real 0 |}
  = {| Pandas.mean_nobs := n + Pandas.count l;
       Pandas.sumx := Exact.Real (s + Rsum (vals l));
       Pandas.compensation := Exact.Real 0 |}.
Proof.
  induction l as [ | x l IH]; intros n s.
  - cbn. f_equal; try lia; f_equal; lra.
  - rewrite count_cons. cbn [fold_left vals map Rsum].
    destruct x as [ | v].
    + change (Pandas.mean_step
                {| Pandas.mean_nobs := n; Pandas.sumx := Exact.Real s;
                   Pandas.compensation := Exact.Real 0 |} Exact.NaN)
        with {| Pandas.mean_nobs := n; Pandas.sumx := Exact.Real s;
                Pandas.compensation := Exact.Real 0 |}.
      rewrite IH. cbn [isnan Py.isnan Exact.exact Exact.isnan].
      f_equal; try lia; f_equal; try fold (vals l); lra.
    + replace (Pandas.mean_step
                 {| Pandas.mean_nobs := n; Pandas.sumx := Exact.Real s;
                    Pandas.compensation := Exact.Real 0 |} (Exact.Real v))
        with {| Pandas.mean_nobs := n + 1; Pandas.sumx := Exact.Real (s + v);
                Pandas.compensation := Exact.Real 0 |}.
      * rewrite IH. cbn [isnan Py.isnan Exact.exact Exact.isnan].
        f_equal; try lia; f_equal; try fold (vals l); lra.
      * unfold Pandas.mean_step. cbn.
        f_equal; f_equal; lra.
Qed.

Lemma exact_group_mean (l : list Exact.xreal) :
  Pandas.group_mean l
  = if Pandas.count l =? 0 then Exact.NaN
    else (Exact.Real (Rsum (vals l)) / of_int (Pandas.count l))%py.
Proof.
  unfold Pandas.group_mean.
  change (of_int 0 : Exact.xreal) with (Exact.Real 0).
  rewrite exact_mean_fold. cbn [Pandas.mean_nobs Pandas.sumx].
  rewrite Z.add_0_l. destruct (Pandas.count l =? 0); [reflexivity | ].
  do 2 f_equal. lra.
Qed.

Lemma group_mean_perm (l l' : list Exact.xreal) :
  Permutation l l' -> Pandas.group_mean l = Pandas.group_mean l'.
Proof.
  intros Hp. rewrite !exact_group_mean, (count_perm _ _ Hp).
  replace (Rsum (vals l)) with (Rsum (vals l')); [reflexivity | ].
  apply Rsum_perm. unfold vals. apply Permutation_map.
  now apply Permutation_sym.
Qed.

(** The running mean and the sum of squared deviations that Welford's
    update holds after [n] numbers with sum [s1] and sum of squares
    [s2]. *)
Definition welford_mean (n : Z) (s1 : R) : R :=
  if n =? 0 then 0%R else (s1 / IZR n)%R.

Definition welford_m2 (n : Z) (s1 s2 : R) : R :=
  if n =? 0 then 0%R else (s2 - s1 * s1 / IZR n)%R.

Definition squares (rs : list R) : list R := map (fun v => (v * v)%R) rs.

Lemma count_zero_sums (l : list Exact.xreal) :
  Pandas.count l = 0 ->
  Rsum (vals l) = 0%R /\ Rsum (squares (vals l)) = 0%R.
Proof.
  induction l as [ | x l IH]; [cbn; auto | ].
  rewrite count_cons. pose proof (count_nonneg l) as Hc.
  destruct x as [ | v]; cbn [isnan Py.isnan Exact.exact Exact.isnan];
    intros Hz; [ | lia].
  destruct IH as [H1 H2]; [lia | ].
  cbn. fold (vals l). fold (squares (vals l)). rewrite H1, H2. split; lra.
Qed.

Lemma var_state_eq (n : Z) (a a' b b' : R) :
  a = a' -> b = b' ->
  {| Pandas.var_nobs := n; Pandas.running_mean := Exact.Real a;
     Pandas.m2 := Exact.Real b |}
  = {| Pandas.var_nobs := n; Pandas.running_mean := Exact.Real a';
       Pandas.m2 := Exact.Real b' |}.
Proof. now intros -> ->. Qed.

Lemma exact_var_fold (l : list Exact.xreal) :
  fold_left Pandas.var_step l
    {| Pandas.var_nobs := 0; Pandas.running_mean := Exact.Real 0;
       Pandas.m2 := Exact.Real 0 |}
  = {| Pandas.var_nobs := Pandas.count l;
       Pandas.running_mean
       := Exact.Real (welford_mean (Pandas.count l) (Rsum (vals l)));
       Pandas.m2
       := Exact.Real (welford_m2 (Pandas.count l) (Rsum (vals l))
                        (Rsum (squares (vals l)))) |}.
Proof.
  induction l as [ | x l IH] using rev_ind; [reflexivity | ].
  rewrite fold_left_app, IH. cbn [fold_left].
  rewrite count_app. unfold vals, squares.
  rewrite !map_app, !Rsum_app. fold (vals l). fold (squares (vals l)).
  pose proof (count_nonneg l) as Hc.
  set (n := Pandas.count l) in *.
  set (s1 := Rsum (vals l)). set (s2 := Rsum (squares (vals l))).
  destruct x as [ | v].
  - change (Pandas.count [Exact.NaN]) with 0. rewrite Z.add_0_r.
    cbn [map Rsum].
    replace (s1 + (0 + 0))%R with s1 by lra.
    replace (s2 + (0 * 0 + 0))%R with s2 by lra.
    reflexivity.
  - change (Pandas.count [Exact.Real v]) with 1. cbn [map Rsum].
    assert (Hn1 : IZR (n + 1) <> 0%R).
    { intros Hz. apply eq_IZR_R0 in Hz. lia. }
    unfold Pandas.var_step.
    cbn [isnan Py.isnan Exact.exact Exact.isnan Pandas.var_nobs
         Pandas.running_mean Pandas.m2].
    cbn [fadd fsub fmul fdiv of_int Exact.exact Exact.lift2 Exact.div].
    destruct (Req_dec_T (IZR (n + 1)) 0) as [Hz | _]; [contradiction | ].
    unfold welford_mean, welford_m2.
    replace (n + 1 =? 0) with false by (symmetry; apply Z.eqb_neq; lia).
    destruct (Z.eqb_spec n 0) as [Hn0 | Hn0].
    + destruct (count_zero_sums l Hn0) as [H1 H2].
      fold s1 in H1. fold s2 in H2. rewrite H1, H2, Hn0.
      change (IZR (0 + 1)) with 1%R.
      apply var_state_eq; field.
    + assert (Hn : IZR n <> 0%R).
      { intros Hz. apply eq_IZR_R0 in Hz. lia. }
      rewrite plus_IZR in *. apply var_state_eq; field; auto.
Qed.

Lemma exact_group_std (l : list Exact.xreal) :
  Pandas.group_std l
  = if Pandas.count l <=? 1 then Exact.NaN
    else fsqrt (Exact.Real (welford_m2 (Pandas.count l) (Rsum (vals l))
                              (Rsum (squares (vals l))))
                / of_int (Pandas.count l - 1))%py.
Proof.
  unfold Pandas.group_std.
  change (of_int 0 : Exact.xreal) with (Exact.Real 0).
  rewrite exact_var_fold. reflexivity.
Qed.

Lemma group_std_perm (l l' : list Exact.xreal) :
  Permutation l l' -> Pandas.group_std l = Pandas.group_std l'.
Proof.
  intros Hp. rewrite !exact_group_std, (count_perm _ _ Hp).
  assert (Hv : Permutation (vals l) (vals l'))
    by (unfold vals; now apply Permutation_map).
  rewrite (Rsum_perm _ _ Hv).
  replace (Rsum (squares (vals l))) with (Rsum (squares (vals l')));
    [reflexivity | ].
  apply Rsum_perm. unfold squares. apply Permutation_map.
  now apply Permutation_sym.
Qed.

(** *** The welfare entry of a file *)

Lemma exact_to_int_value_error (x : Exact.xreal) (e : exn) :
  to_int x = inl e -> e = ValueError.
Proof.
  destruct x; cbn; [ | discriminate]. intros He. now injection He as <-.
Qed.

Lemma welfare_row_value_error (bdp : Z) (r : TerminalRow Exact.xreal)
    (e : exn) :
  Welfare.welfare_row r bdp = inl e -> e = ValueError.
Proof.
  unfold Welfare.welfare_row.
  destruct (to_int (employed_float r)) as [e' | ne] eqn:Hx.
  - rewrite (row_locals_raises r bdp _ Hx). cbn.
    intros He. injection He as <-.
    now apply exact_to_int_value_error with (1 := Hx).
  - destruct (row_locals_defined r bdp _ Hx) as (l & Hl & _).
    rewrite Hl. discriminate.
Qed.

(** The entry of a file does not depend on the order of its rows. *)
Lemma welfare_entry_perm (tree tree' : Tree Exact.xreal) (bdp : Z)
    (regime : RegimeId) (df df' : list (TerminalRow Exact.xreal)) :
  terminal tree regime bdp = Some df ->
  terminal tree' regime bdp = Some df' ->
  Permutation df df' ->
  Welfare.welfare_entry tree bdp regime
  = Welfare.welfare_entry tree' bdp regime.
Proof.
  intros Hdf Hdf' Hp.
  unfold Welfare.welfare_entry, Welfare.load_term, read_csv.
  rewrite Hdf, Hdf'. cbv beta iota delta [bind ret].
  unfold Welfare.compute_welfare.
  destruct (mapM_perm (fun r => Welfare.welfare_row r bdp) ValueError
              df df' (welfare_row_value_error bdp) Hp)
    as [[-> ->] | (w & w' & -> & -> & Hw)]; [reflexivity | ].
  destruct w as [ | x w]; destruct w' as [ | x' w'].
  - reflexivity.
  - now apply Permutation_nil in Hw.
  - apply Permutation_sym in Hw. now apply Permutation_nil in Hw.
  - cbv beta iota delta [Welfare.column bind ret].
    set (v := x :: w) in *. set (v' := x' :: w') in *.
    assert (Hcol : forall col : Welfare.WelfareRow -> Exact.xreal,
              Pandas.mean (map col v) = Pandas.mean (map col v') /\
              Pandas.std (map col v) = Pandas.std (map col v')).
    { intros col. split; [apply mean_perm | apply std_perm];
        now apply Permutation_map. }
    destruct (Hcol Welfare.col_real_cons_pc) as [-> ->].
    destruct (Hcol Welfare.col_gini) as [-> ->].
    destruct (Hcol Welfare.col_adoption) as [-> _].
    destruct (Hcol Welfare.col_unemployment) as [-> _].
    reflexivity.
Qed.

(** Three seeds of one file, with adoption 0.001, 0.002 and 0.003. *)
Definition three_seeds : list (TerminalRow spec_float) :=
  [row_with_adoption 1; row_with_adoption 2; row_with_adoption 3].

(** In binary64 the mean adoption of a file changes when its three rows
    are read in the opposite order: the sums (0.1 + 0.2) + 0.3 and
    (0.3 + 0.2) + 0.1 round differently. *)
Lemma C9_row_order_counterexample :
  Permutation three_seeds (rev three_seeds) /\
  map (fun r => (TotalAdoption r * of_int 100)%py) three_seeds
  = [decimal 1 1; decimal 2 1; decimal 3 1] /\
  exists a a' : Welfare.Aggregate,
    Welfare.welfare_entry (tree_one_file three_seeds) 2000 pln = inr a /\
    Welfare.welfare_entry (tree_one_file (rev three_seeds)) 2000 pln
    = inr a' /\
    Welfare.Adoption_mean a <> Welfare.Adoption_mean a' /\
    SFltb (Welfare.Adoption_mean a') (Welfare.Adoption_mean a) = true.
Proof.
  split; [apply Permutation_rev | ].
  split; [vm_compute; reflexivity | ].
  eexists. eexists.
  split; [vm_compute; reflexivity | ].
  split; [vm_compute; reflexivity | ].
  split; [vm_compute; discriminate | vm_compute; reflexivity].
Qed.

(** C9 (amended): in exact arithmetic, where a sum does not depend on the
    order of its terms, reordering the rows changes no mean and no
    standard deviation: not those of a column, not the per-level means
    and deviations of the sweep frame (and so not the critical point),
    and not the welfare entry computed from a terminal file. *)
Theorem C9_row_order_exact :
  (forall l l' : list Exact.xreal,
     Permutation l l' ->
     Pandas.mean l = Pandas.mean l' /\ Pandas.std l = Pandas.std l') /\
  (forall (data data' : list (@Sweep.SweepRow Exact.xreal))
          (col : Sweep.SweepRow -> Exact.xreal),
     Permutation data data' ->
     Sweep.means data col = Sweep.means data' col /\
     Sweep.stds data = Sweep.stds data' /\
     Sweep.critical_point data = Sweep.critical_point data') /\
  (forall (tree tree' : Tree Exact.xreal) (bdp : Z) (regime : RegimeId)
          (df df' : list (TerminalRow Exact.xreal)),
     terminal tree regime bdp = Some df ->
     terminal tree' regime bdp = Some df' ->
     Permutation df df' ->
     Welfare.welfare_entry tree bdp regime
     = Welfare.welfare_entry tree' bdp regime).
Proof.
  split; [ | split].
  - intros l l' Hp. split.
    + now apply mean_perm.
    + now apply std_perm.
  - intros data data' col Hp.
    assert (Hstds : Sweep.stds data = Sweep.stds data').
    { unfold Sweep.stds. apply groupby_agg_perm; [ | exact Hp].
      apply group_std_perm. }
    split; [ | split; [exact Hstds | ]].
    + unfold Sweep.means. f_equal.
      * apply groupby_agg_perm; [ | exact Hp].
        apply group_mean_perm.
      * apply groupby_agg_perm; [ | exact Hp].
        apply group_std_perm.
    + unfold Sweep.critical_point. rewrite Hstds.
      destruct data as [ | r data]; destruct data' as [ | r' data'].
      * reflexivity.
      * now apply Permutation_nil in Hp.
      * apply Permutation_sym in Hp. now apply Permutation_nil in Hp.
      * reflexivity.
  - intros tree tree' bdp regime df df'.
    apply welfare_entry_perm.
Qed.

(** Three seeds in exact arithmetic, with unemployment 1/10, 2/10, 3/10. *)
Definition exact_seeds : list (TerminalRow Exact.xreal) :=
  [row_with_unemployment (Exact.Real (1 / 10));
   row_with_unemployment (Exact.Real (2 / 10));
   row_with_unemployment (Exact.Real (3 / 10))].

Definition exact_tree (df : list (TerminalRow Exact.xreal))
    : Tree Exact.xreal :=
  {| terminal := fun regime bdp =>
       match regime with
       | pln => if bdp =? 2000 then Some df else None
       | eur => None
       end;
     timeseries := fun _ _ => None |}.

(** Reading the three seeds in the opposite order gives the same mean,
    the same deviation and the same welfare entry. *)
Lemma C9_row_order_exact_witness :
  Pandas.mean [Exact.Real (1 / 10); Exact.Real (2 / 10); Exact.Real (3 / 10)]
  = Pandas.mean
      [Exact.Real (3 / 10); Exact.Real (2 / 10); Exact.Real (1 / 10)] /\
  Sweep.stds (map (Sweep.sweep_row 2000) exact_seeds)
  = Sweep.stds (map (Sweep.sweep_row 2000) (rev exact_seeds)) /\
  Welfare.welfare_entry (exact_tree exact_seeds) 2000 pln
  = Welfare.welfare_entry (exact_tree (rev exact_seeds)) 2000 pln.
Proof.
  destruct C9_row_order_exact as (Hcol & Hsweep & Hwelfare).
  split; [ | split].
  - apply (Hcol [Exact.Real (1 / 10); Exact.Real (2 / 10);
                 Exact.Real (3 / 10)]
                (rev [Exact.Real (1 / 10); Exact.Real (2 / 10);
                      Exact.Real (3 / 10)])).
    apply Permutation_rev.
  - apply (Hsweep (map (Sweep.sweep_row 2000) exact_seeds)
                  (map (Sweep.sweep_row 2000) (rev exact_seeds))
                  Sweep.Adoption).
    apply Permutation_map, Permutation_rev.
  - apply (Hwelfare _ _ 2000 pln exact_seeds (rev exact_seeds));
      [reflexivity | reflexivity | apply Permutation_rev].
Defined.

(** ** Further properties of the loaders and the summary table *)

(** A terminal file without rows is not a missing file: the welfare frame
    built from no rows has no columns, the first column access raises
    AttributeError, and the [except FileNotFoundError] of the load loop
    does not catch it. *)
Theorem welfare_empty_file_aborts :
  forall (F : Type) (PF : PyFloat F) (tree : Tree F)
         (welfare : list (@Welfare.Aggregate F)) (bdp : Z)
         (regime : RegimeId),
  terminal tree regime bdp = Some [] ->
  Welfare.welfare_entry tree bdp regime = inl AttributeError /\
  Welfare.welfare_step tree welfare bdp regime = inl AttributeError.
Proof.
  intros F PF tree welfare bdp regime Hfile.
  assert (He : Welfare.welfare_entry tree bdp regime = inl AttributeError).
  { unfold Welfare.welfare_entry, Welfare.load_term, read_csv.
    rewrite Hfile. reflexivity. }
  split; [exact He | ].
  unfold Welfare.welfare_step. rewrite He. reflexivity.
Qed.

(** A tree whose PLN file of level 0 has a header and no rows. *)
Definition tree_empty_file : Tree spec_float :=
  {| terminal := fun regime bdp =>
       match regime with
       | pln => if bdp =? 0 then Some [] else None
       | eur => None
       end;
     timeseries := fun _ _ => None |}.

Lemma welfare_empty_file_aborts_witness :
  Welfare.welfare_entry tree_empty_file 0 pln = inl AttributeError /\
  Welfare.welfare_step tree_empty_file [] 0 pln = inl AttributeError.
Proof.
  apply (welfare_empty_file_aborts spec_float _ tree_empty_file [] 0 pln).
  reflexivity.
Defined.

(** The notices of [load_sweep] are those of the levels without a file,
    in the order of BDP_LEVELS; the rows are those of the files that
    exist, level after level, each under the level of its file, so the
    BDP column of the frame never decreases. *)
Theorem load_sweep_accounting :
  forall (F : Type) (PF : PyFloat F) (tree : Tree F) (regime : RegimeId),
  fst (Sweep.load_sweep tree regime)
  = map (Sweep.MISSING regime)
        (filter (fun bdp => match terminal tree regime bdp with
                            | None => true
                            | Some _ => false
                            end) BDP_LEVELS) /\
  snd (Sweep.load_sweep tree regime)
  = flat_map (fun bdp => match terminal tree regime bdp with
                         | Some df => map (Sweep.sweep_row bdp) df
                         | None => []
                         end) BDP_LEVELS /\
  StronglySorted Z.le (map Sweep.BDP (snd (Sweep.load_sweep tree regime))).
Proof.
  intros F PF tree regime. rewrite load_sweep_eq. cbn [fst snd].
  split; [ | split].
  - unfold level_notices.
    induction BDP_LEVELS as [ | bdp levels IH]; cbn; [reflexivity | ].
    destruct (terminal tree regime bdp); cbn; now rewrite IH.
  - reflexivity.
  - assert (Hsorted : StronglySorted Z.lt BDP_LEVELS).
    { vm_compute. repeat (constructor; [ | repeat constructor; lia]).
      constructor. }
    induction Hsorted as [ | bdp levels Hs IH Hall]; cbn; [constructor | ].
    rewrite map_app.
    assert (Hblock : forall x, In x (map Sweep.BDP (level_rows tree regime bdp))
                               -> x = bdp).
    { intros x Hx. apply in_map_iff in Hx. destruct Hx as (r & <- & Hr).
      now apply level_rows_BDP with tree regime. }
    assert (Hrest : forall y,
              In y (map Sweep.BDP (flat_map (level_rows tree regime) levels))
              -> bdp < y).
    { intros y Hy. apply in_map_iff in Hy. destruct Hy as (r & <- & Hr).
      apply in_flat_map in Hr. destruct Hr as (b & Hb & Hr).
      rewrite (level_rows_BDP _ _ _ _ Hr).
      rewrite Forall_forall in Hall. now apply Hall. }
    induction (map Sweep.BDP (level_rows tree regime bdp)) as [ | x xs IHx];
      cbn; [exact IH | ].
    constructor.
    + apply IHx. intros y Hy. apply Hblock. now right.
    + apply Forall_forall. intros y Hy.
      rewrite (Hblock x (or_introl eq_refl)).
      apply in_app_or in Hy. destruct Hy as [Hy | Hy].
      * rewrite (Hblock y (or_intror Hy)). lia.
      * specialize (Hrest y Hy). lia.
Qed.




